(** * Ventana BigTIFF detection (openslide-vendor-ventana.c)

    A shallow embedding of the Ventana vendor driver of OpenSlide and the
    properties of its directory classification.

    Conventions.
    - C strings are [string]; a [char *] that may be NULL is [option string].
    - [int32_t], [int64_t], [uint32_t], [uint16_t] and [tdir_t] values are
      [Z].  The only arithmetic the driver does on them is the comparison of
      widths and the increment of the level counter, so no wrap-around
      occurs: a [uint32_t] width is widened to [int64_t] unchanged.
    - A [GHashTable] with string keys is a [gmap string _];
      [g_hash_table_insert] replaces the value of a key already present,
      which is [<[k:=v]>].
    - The [GList] of levels is a [list level]; [g_list_prepend] is [cons].
    - libtiff, libxml2 and the parts of OpenSlide that live in other files
      are an interface ([Runtime]) the driver is parametrised by. *)

From Stdlib Require Import ZArith String Ascii List Lia Sorted Permutation.
From stdpp Require Import gmap strings pretty sorting.
From Equations Require Import Equations.

Open Scope string_scope.
Open Scope Z_scope.

(** ** GRegex: the two patterns [find_property] compiles *)

Module GRegex.

(** [\s] of PCRE outside UCP mode: HT, LF, VT, FF, CR and space. *)
Definition is_space (c : ascii) : bool :=
  let n := nat_of_ascii c in
  ((9 <=? n)%nat && (n <=? 13)%nat) || (n =? 32)%nat.

(** Characters [.] refuses: the line terminators (GRegex compiles with
    any-newline unless told otherwise).  Descriptions are ASCII text,
    so only LF, VT, FF and CR are in play. *)
Definition is_newline (c : ascii) : bool :=
  let n := nat_of_ascii c in
  (10 <=? n)%nat && (n <=? 13)%nat.

(** The character class of the quoted pattern: the double quote (34) and
    the single quote (39). *)
Definition is_quote (c : ascii) : bool :=
  let n := nat_of_ascii c in
  (n =? 34)%nat || (n =? 39)%nat.

(** Match the literal [p] at the start of [s]; the rest of [s] on success. *)
Fixpoint literal (p s : string) : option string :=
  match p with
  | EmptyString => Some s
  | String a p' =>
      match s with
      | EmptyString => None
      | String b s' => if Ascii.eqb a b then literal p' s' else None
      end
  end.

(** [(\S+)] under G_REGEX_UNGREEDY at the end of a pattern: the lazy
    quantifier stops after the first non-space character. *)
Definition lazy_nonspace (s : string) : option string :=
  match s with
  | String c _ => if is_space c then None else Some (String c EmptyString)
  | EmptyString => None
  end.

(** The lazy dot-star group and the closing quote class under
    G_REGEX_UNGREEDY: the group grows one character at a time until a
    quote character follows; it cannot cross a line terminator.  The text
    consumed, closing quote included. *)
Fixpoint lazy_to_quote (s : string) : option string :=
  match s with
  | EmptyString => None
  | String c s' =>
      if is_quote c then Some (String c EmptyString)
      else if is_newline c then None
      else option_map (String c) (lazy_to_quote s')
  end.

(** [prop_name=(\S+)] anchored at the start of [s]: the text matched. *)
Definition match_unquoted (prop_name s : string) : option string :=
  match literal (prop_name +:+ "=") s with
  | Some rest =>
      match lazy_nonspace rest with
      | Some v => Some (prop_name +:+ "=" +:+ v)
      | None => None
      end
  | None => None
  end.

(** [prop_name=], a quote, the lazy dot-star group, a quote, anchored at
    the start of [s]: the text matched.  The two quotes need not be the
    same character. *)
Definition match_quoted (prop_name s : string) : option string :=
  match literal (prop_name +:+ "=") s with
  | Some (String q rest) =>
      if is_quote q then
        match lazy_to_quote rest with
        | Some v => Some (prop_name +:+ "=" +:+ String q v)
        | None => None
        end
      else None
  | _ => None
  end.

(** [g_regex_match] followed by [g_match_info_fetch (match, 0)]: the
    leftmost position at which the pattern matches, and the whole text
    matched there (sub-pattern 0 is the full match, 1 would be the first
    parenthesis). *)
Fixpoint fetch_0 (match_at : string -> option string) (s : string)
  : option string :=
  match match_at s with
  | Some m => Some m
  | None =>
      match s with
      | EmptyString => None
      | String _ s' => fetch_0 match_at s'
      end
  end.

End GRegex.

(** [find_property]: [Some v] when the function returns true with
    [*prop_value = v], [None] when it returns false.  [prop_name] is
    spliced into the pattern; the driver passes the plain word level,
    and the model takes [prop_name] as literal text. *)
Definition find_property (string_to_parse prop_name : string) (quotes : bool)
  : option string :=
  if quotes
  then GRegex.fetch_0 (GRegex.match_quoted prop_name) string_to_parse
  else GRegex.fetch_0 (GRegex.match_unquoted prop_name) string_to_parse.

(** [strstr]: the suffix of [haystack] starting at the first occurrence of
    [needle], [None] for NULL. *)
Fixpoint strstr (haystack needle : string) : option string :=
  match GRegex.literal needle haystack with
  | Some _ => Some haystack
  | None =>
      match haystack with
      | EmptyString => None
      | String _ h' => strstr h' needle
      end
  end.

(** ** Levels and their ordering *)

(** [struct level]. *)
Record level := { directory : Z; width : Z }.

(** [width_compare]: wider first. *)
Definition width_compare (la lb : level) : Z :=
  if width la >? width lb then -1
  else if width la =? width lb then 0
  else 1.

(** ** GList: [g_list_sort]

    GLib sorts a list by a recursive merge sort.  [g_list_sort_real] cuts
    the list after its first [n / 2] cells (a pointer that advances one
    cell for every two cells of a second pointer), sorts both parts and
    merges them; [g_list_sort_merge] takes the head of the left part
    whenever the comparison is not positive. *)

Module GList.

Section Sort.

Context {A : Type} (compare_func : A -> A -> Z).

Fixpoint g_list_sort_merge (l1 : list A) : list A -> list A :=
  fix merge_into (l2 : list A) : list A :=
    match l1, l2 with
    | [], _ => l2
    | _, [] => l1
    | a :: l1', b :: l2' =>
        if compare_func a b <=? 0
        then a :: g_list_sort_merge l1' l2
        else b :: merge_into l2'
    end.

Equations? g_list_sort_real (l : list A) : list A
  by wf (length l) lt :=
  g_list_sort_real [] := [];
  g_list_sort_real [x] := [x];
  g_list_sort_real (x :: y :: tl) :=
    g_list_sort_merge
      (g_list_sort_real (firstn (Nat.div2 (length (x :: y :: tl))) (x :: y :: tl)))
      (g_list_sort_real (skipn (Nat.div2 (length (x :: y :: tl))) (x :: y :: tl))).
Proof.
  all: clear g_list_sort_real.
  all: assert (Hh : (Nat.div2 (length tl) <= length tl)%nat)
    by (rewrite Nat.div2_div; pose proof (Nat.div_mod_eq (length tl) 2); lia).
  all: revert Hh; generalize (Nat.div2 (length tl)); intros h Hh.
  - rewrite length_take. cbn [length].
    pose proof (Nat.le_min_l h (S (length tl))). lia.
  - rewrite length_drop. cbn [length]. lia.
Qed.

End Sort.

Definition g_list_sort {A : Type} (l : list A) (compare_func : A -> A -> Z)
  : list A :=
  g_list_sort_real compare_func l.

End GList.

(** ** Errors *)

(** The error codes of the OPENSLIDE_ERROR domain the driver raises, and
    whatever (domain, code) a collaborator in another file may set. *)
Inductive error_code :=
| OPENSLIDE_ERROR_FORMAT_NOT_SUPPORTED
| OPENSLIDE_ERROR_BAD_DATA
| ERROR_ELSEWHERE (domain : string) (n : Z).

Record GError := { code : error_code; message : string }.

Definition g_set_error (c : error_code) (msg : string) : GError :=
  {| code := c; message := msg |}.

Definition g_prefix_error (e : GError) (prefix : string) : GError :=
  {| code := code e; message := prefix +:+ message e |}.

(** ** The TIFF handle

    A directory carries the tags the driver asks for; [None] is a tag
    [TIFFGetField] cannot deliver. *)
Record tiff_directory := {
  dir_is_tiled : bool;
  TIFFTAG_IMAGEWIDTH : option Z;
  TIFFTAG_IMAGEDESCRIPTION : option string;
  TIFFTAG_COMPRESSION : option Z;
  TIFFTAG_XMLPACKET : option string
}.

(** An open handle: the number of the current directory, the current
    directory, and the directories [TIFFReadDirectory] will deliver next. *)
Record TIFF := {
  tif_curdir : Z;
  tif_dir : tiff_directory;
  tif_next : list tiff_directory
}.

Definition TIFFCurrentDirectory (tiff : TIFF) : Z := tif_curdir tiff.

Definition TIFFIsTiled (tiff : TIFF) : bool := dir_is_tiled (tif_dir tiff).

Definition TIFFGetField {A : Type} (tiff : TIFF)
  (tag : tiff_directory -> option A) : option A :=
  tag (tif_dir tiff).

(** [None] when there is no further directory. *)
Definition TIFFReadDirectory (tiff : TIFF) : option TIFF :=
  match tif_next tiff with
  | [] => None
  | d :: rest =>
      Some {| tif_curdir := tif_curdir tiff + 1; tif_dir := d; tif_next := rest |}
  end.

(** The directory numbered [n], seen from the handle [tiff]. *)
Definition directory_at (tiff : TIFF) (n : Z) : option tiff_directory :=
  if n <? tif_curdir tiff then None
  else (tif_dir tiff :: tif_next tiff) !! Z.to_nat (n - tif_curdir tiff).

(** ** Collaborators

    libxml2, the codec table of libtiff, and the functions of OpenSlide
    defined in other files.  An XPath context is the document it was made
    for.  [xmlXPathEvalExpression] yields [None] for a NULL result,
    [Some None] for a result whose node set is NULL, and otherwise the
    node table. *)
Class Runtime := {
  xmlDoc : Type;
  xmlNode : Type;
  xmlReadMemory : string -> option xmlDoc;
  xmlXPathEvalExpression : string -> xmlDoc -> option (option (list xmlNode));
  xmlGetProp : xmlNode -> string -> option string;
  xmlNodeGetContent : xmlNode -> option string;
  TIFFIsCODECConfigured : Z -> bool;
  associated_image : Type;
  (** [(err, ht')]: [err = None] when the call returns true, [Some e] when
      it returns false with the error [e] set; [ht'] is the table after the
      call ([ht] may be NULL, and a NULL table stays NULL). *)
  _openslide_add_tiff_associated_image :
    option (gmap string associated_image) -> string -> TIFF ->
    option GError * option (gmap string associated_image);
  _openslide_duplicate_int_prop :
    gmap string string -> string -> string -> gmap string string;
  _openslide_duplicate_double_prop :
    gmap string string -> string -> string -> gmap string string;
  OPENSLIDE_PROPERTY_NAME_VENDOR : string;
  OPENSLIDE_PROPERTY_NAME_OBJECTIVE_POWER : string;
  OPENSLIDE_PROPERTY_NAME_MPP_X : string;
  OPENSLIDE_PROPERTY_NAME_MPP_Y : string
}.

Section Driver.

Context `{RT : Runtime}.

(** The two tables of [openslide_t] the driver writes to.  A NULL [osr] is
    [None]. *)
Record openslide_t := {
  properties : gmap string string;
  associated_images : gmap string associated_image
}.

(** [if (osr) g_hash_table_insert (osr->properties, k, v)]. *)
Definition insert_property (osr : option openslide_t) (k v : string)
  : option openslide_t :=
  match osr with
  | Some o =>
      Some {| properties := <[k:=v]> (properties o);
              associated_images := associated_images o |}
  | None => None
  end.

(** [osr ? osr->associated_images : NULL]. *)
Definition associated_images_of (osr : option openslide_t)
  : option (gmap string associated_image) :=
  match osr with
  | Some o => Some (associated_images o)
  | None => None
  end.

(** The table a callee was handed, as [osr] sees it after the call. *)
Definition with_associated_images (osr : option openslide_t)
  (ht : option (gmap string associated_image)) : option openslide_t :=
  match osr, ht with
  | Some o, Some t =>
      Some {| properties := properties o; associated_images := t |}
  | _, _ => osr
  end.

Definition VENTANA_ISCAN : string := "/EncodeInfo/SlideInfo/iScan".

(** [eval_xpath]: NULL if no matches. *)
Definition eval_xpath (xpath : string) (context : xmlDoc)
  : option (list xmlNode) :=
  match xmlXPathEvalExpression xpath context with
  | None => None
  | Some None => None
  | Some (Some []) => None
  | Some (Some nodeTab) => Some nodeTab
  end.

Definition set_prop_from_content (osr : option openslide_t)
  (property_name xpath : string) (context : xmlDoc) : option openslide_t :=
  match eval_xpath xpath context with
  | Some (node0 :: _) =>
      match xmlNodeGetContent node0 with
      | Some str => insert_property osr property_name str
      | None => osr
      end
  | _ => osr
  end.

Definition set_prop_from_attribute (osr : option openslide_t)
  (property_name xpath attribute_name : string) (context : xmlDoc)
  : option openslide_t :=
  match eval_xpath xpath context with
  | Some (node0 :: _) =>
      match xmlGetProp node0 attribute_name with
      | Some str => insert_property osr property_name str
      | None => osr
      end
  | _ => osr
  end.

(** [add_associated_image]: the error, if any, and the table afterwards. *)
Definition add_associated_image (ht : option (gmap string associated_image))
  (name_if_available : option string) (tiff : TIFF)
  : option GError * option (gmap string associated_image) :=
  let name :=
    match name_if_available with
    | Some n => Some n
    | None => TIFFGetField tiff TIFFTAG_IMAGEDESCRIPTION
    end in
  match name with
  | None => (None, ht)
  | Some name => _openslide_add_tiff_associated_image ht name tiff
  end.

(** [parse_xml_description]: [inl e] when it returns false with the error
    [e] set (nothing has been written to [osr] by then), [inr osr'] when it
    returns true.  A failed allocation of the XPath context aborts the
    process and is left out. *)
Definition parse_xml_description (xml : string) (osr : option openslide_t)
  : GError + option openslide_t :=
  match xmlReadMemory xml with
  | None =>
      inl (g_set_error OPENSLIDE_ERROR_FORMAT_NOT_SUPPORTED
             "Could not parse XML")
  | Some context =>
      match eval_xpath VENTANA_ISCAN context with
      | None =>
          inl (g_set_error OPENSLIDE_ERROR_BAD_DATA
                 "Multiple iScan elements found")
      | Some nodeTab =>
          if negb (length nodeTab =? 1)%nat then
            inl (g_set_error OPENSLIDE_ERROR_BAD_DATA
                   "Multiple iScan elements found")
          else
            let attr osr property_name attribute_name :=
              set_prop_from_attribute osr property_name VENTANA_ISCAN
                attribute_name context in
            let osr := attr osr "ventana.magnification" "Magnification" in
            let osr := attr osr "ventana.resolution" "ScanRes" in
            let osr := attr osr "ventana.device-model" "UnitNumber" in
            let osr := attr osr "ventana.build-version" "BuildVersion" in
            let osr := attr osr "ventana.build-date" "BuildDate" in
            let osr := attr osr "ventana.slide-annotation" "SlideAnnotation" in
            let osr := attr osr "ventana.show-label" "ShowLabel" in
            let osr := attr osr "ventana.label-boundary" "LabelBoundary" in
            let osr := attr osr "ventana.z-layers" "Z-layers" in
            let osr := attr osr "ventana.z-spacing" "Z-spacing" in
            let osr := attr osr "ventana.focus-mode" "FocusMode" in
            let osr := attr osr "ventana.focus-quality" "FocusQuality" in
            let osr := attr osr "ventana.scan-mode" "ScanMode" in
            inr
              match osr with
              | Some o =>
                  let p := properties o in
                  let p := _openslide_duplicate_int_prop p
                             "ventana.magnification"
                             OPENSLIDE_PROPERTY_NAME_OBJECTIVE_POWER in
                  let p := _openslide_duplicate_double_prop p
                             "ventana.resolution"
                             OPENSLIDE_PROPERTY_NAME_MPP_X in
                  let p := _openslide_duplicate_double_prop p
                             "ventana.resolution"
                             OPENSLIDE_PROPERTY_NAME_MPP_Y in
                  Some {| properties := p;
                          associated_images := associated_images o |}
              | None => None
              end
      end
  end.

(** One pass through the body of the do-while loop: either control reaches
    the loop condition ([continue], or the end of the body), or it jumps to
    FAIL. *)
Inductive body_result :=
| Continue (osr : option openslide_t) (level_list : list level)
| Fail (err : GError) (osr : option openslide_t).

(** The filter for the fixed directories 0 (label) and 1 (thumbnail). *)
Definition filter_associated (osr : option openslide_t) (name prefix : string)
  (tiff : TIFF) (level_list : list level) : body_result :=
  match add_associated_image (associated_images_of osr) (Some name) tiff with
  | (Some e, ht) => Fail (g_prefix_error e prefix) (with_associated_images osr ht)
  | (None, ht) => Continue (with_associated_images osr ht) level_list
  end.

Definition loop_body (osr : option openslide_t) (tiff : TIFF)
  (level_list : list level) : body_result :=
  let dir := TIFFCurrentDirectory tiff in
  if negb (TIFFIsTiled tiff) then Continue osr level_list else
  match TIFFGetField tiff TIFFTAG_IMAGEWIDTH with
  | None => Continue osr level_list
  | Some width =>
      if dir =? 0 then
        filter_associated osr "label" "Can't read associated label image: "
          tiff level_list
      else if dir =? 1 then
        filter_associated osr "thumbnail"
          "Can't read associated thumbnail image: " tiff level_list
      else
      match TIFFGetField tiff TIFFTAG_IMAGEDESCRIPTION with
      | None => Continue osr level_list
      | Some imageDesc =>
      match find_property imageDesc "level" false with
      | None => Continue osr level_list
      | Some level_value =>
      match TIFFGetField tiff TIFFTAG_COMPRESSION with
      | None =>
          Fail (g_set_error OPENSLIDE_ERROR_BAD_DATA
                  "Can't read compression scheme") osr
      | Some compression =>
          if negb (TIFFIsCODECConfigured compression) then
            Fail (g_set_error OPENSLIDE_ERROR_BAD_DATA
                    ("Unsupported TIFF compression: " +:+ pretty compression))
              osr
          else
            let push osr :=
              Continue osr
                ({| directory := TIFFCurrentDirectory tiff; width := width |}
                 :: level_list) in
            if String.eqb level_value "0" then
              match TIFFGetField tiff TIFFTAG_XMLPACKET with
              | None =>
                  Fail (g_set_error OPENSLIDE_ERROR_FORMAT_NOT_SUPPORTED
                          "Not a Ventana slide") osr
              | Some xmpData =>
                  match strstr xmpData "<iScan" with
                  | None =>
                      Fail (g_set_error OPENSLIDE_ERROR_FORMAT_NOT_SUPPORTED
                              "Not a Ventana slide") osr
                  | Some _ =>
                      match parse_xml_description xmpData osr with
                      | inl e => Fail e osr
                      | inr osr' => push osr'
                      end
                  end
              end
            else push osr
      end end end
  end.

(** The do-while loop: the body on the current directory, then
    [TIFFReadDirectory]. *)
Fixpoint directory_loop (osr : option openslide_t) (dir : Z)
  (d : tiff_directory) (next : list tiff_directory) (level_list : list level)
  {struct next} : body_result :=
  match loop_body osr {| tif_curdir := dir; tif_dir := d; tif_next := next |}
          level_list with
  | Fail e osr' => Fail e osr'
  | Continue osr' level_list' =>
      match next with
      | [] => Continue osr' level_list'
      | d' :: next' => directory_loop osr' (dir + 1) d' next' level_list'
      end
  end.

(** What [_openslide_add_tiff_ops] is called with. *)
Record tiff_ops := {
  property_dir : Z;
  level_count : Z;
  levels : list Z
}.

(** How a call of the driver ends.  [Undefined] is the read of [levels[0]]
    from an array of zero elements. *)
Inductive outcome :=
| Returns_true (ops : tiff_ops)
| Returns_false (err : GError)
| Undefined.

(** The loop, started on the current directory of [tiff]. *)
Definition run_loop (osr : option openslide_t) (tiff : TIFF)
  (level_list : list level) : body_result :=
  directory_loop osr (tif_curdir tiff) (tif_dir tiff) (tif_next tiff)
    level_list.

(** After the loop: sort the list, copy the directory numbers into the
    array [levels], read [levels[0]] and call [_openslide_add_tiff_ops]. *)
Definition sort_and_hand_off (level_list : list level) : outcome :=
  let level_list := GList.g_list_sort level_list width_compare in
  let levels := map directory level_list in
  match levels with
  | [] => Undefined
  | levels_0 :: _ =>
      Returns_true {| property_dir := levels_0;
                      level_count := Z.of_nat (length levels);
                      levels := levels |}
  end.

(** The two exits of the function: [return true] past the loop, or FAIL. *)
Definition after_loop (r : body_result) : outcome * option openslide_t :=
  match r with
  | Fail e osr' => (Returns_false e, osr')
  | Continue osr' level_list => (sort_and_hand_off level_list, osr')
  end.

(** [_openslide_try_ventana]: the outcome and [osr] as the call leaves it. *)
Definition _openslide_try_ventana (osr : option openslide_t) (tiff : TIFF)
  : outcome * option openslide_t :=
  if negb (TIFFIsTiled tiff) then
    (Returns_false (g_set_error OPENSLIDE_ERROR_FORMAT_NOT_SUPPORTED
                      "TIFF is not tiled"), osr)
  else
    let osr := insert_property osr OPENSLIDE_PROPERTY_NAME_VENDOR "ventana" in
    after_loop (run_loop osr tiff []).

(** ** Vocabulary of the properties *)

(** [at_loop_top start here]: a run of the loop that starts in the state
    [start] (handle, [osr], list of levels) arrives at the top of the loop
    body in the state [here]. *)
Inductive at_loop_top
  (start : TIFF * option openslide_t * list level)
  : TIFF * option openslide_t * list level -> Prop :=
| at_start : at_loop_top start start
| at_next tiff osr level_list osr' level_list' tiff' :
    at_loop_top start (tiff, osr, level_list) ->
    loop_body osr tiff level_list = Continue osr' level_list' ->
    TIFFReadDirectory tiff = Some tiff' ->
    at_loop_top start (tiff', osr', level_list').

(** The state at the top of the loop body after [n] more passes, if the
    loop gets that far. *)
Fixpoint advance (n : nat) (tiff : TIFF) (osr : option openslide_t)
  (level_list : list level)
  : option (TIFF * option openslide_t * list level) :=
  match n with
  | O => Some (tiff, osr, level_list)
  | S n' =>
      match loop_body osr tiff level_list with
      | Continue osr' level_list' =>
          match TIFFReadDirectory tiff with
          | Some tiff' => advance n' tiff' osr' level_list'
          | None => None
          end
      | Fail _ _ => None
      end
  end.

(** The four filters a directory passes before its compression tag is
    looked at. *)
Definition level_candidate (tiff : TIFF) : Prop :=
  TIFFIsTiled tiff = true /\
  TIFFGetField tiff TIFFTAG_IMAGEWIDTH <> None /\
  TIFFCurrentDirectory tiff <> 0 /\
  TIFFCurrentDirectory tiff <> 1 /\
  exists imageDesc,
    TIFFGetField tiff TIFFTAG_IMAGEDESCRIPTION = Some imageDesc /\
    find_property imageDesc "level" false <> None.

(** The compression tag cannot be read, or names a codec that is not
    configured. *)
Definition undecodable (tiff : TIFF) : Prop :=
  match TIFFGetField tiff TIFFTAG_COMPRESSION with
  | None => True
  | Some compression => TIFFIsCODECConfigured compression = false
  end.

(** The number of nodes the scan-info query matches in a document. *)
Definition iscan_count (context : xmlDoc) : nat :=
  match xmlXPathEvalExpression VENTANA_ISCAN context with
  | Some (Some nodeTab) => length nodeTab
  | _ => 0%nat
  end.

(** The verdict of [_openslide_add_tiff_associated_image] does not depend
    on whether it is handed a table. *)
Definition verdict_ignores_table : Prop :=
  forall ht name tiff,
    fst (_openslide_add_tiff_associated_image None name tiff) =
    fst (_openslide_add_tiff_associated_image (Some ht) name tiff).

(** The width tag of the directory numbered [n]. *)
Definition width_of (tiff : TIFF) (n : Z) : option Z :=
  match directory_at tiff n with
  | Some d => TIFFTAG_IMAGEWIDTH d
  | None => None
  end.

(** An array of directory numbers whose widths never increase, entries of
    equal width in the order [tie]. *)
Definition ordered_levels (tie : Z -> Z -> Prop) (tiff : TIFF)
  (levels : list Z) : Prop :=
  forall (i j : nat) (a b wa wb : Z),
    (i < j)%nat ->
    levels !! i = Some a -> levels !! j = Some b ->
    width_of tiff a = Some wa -> width_of tiff b = Some wb ->
    wb <= wa /\ (wa = wb -> tie a b).

(** The current directory of a fresh call is passed over: the call ends as
    the loop started on the next directory does, or, when there is no next
    directory, as a loop that collected nothing. *)
Definition passed_over (osr : option openslide_t) (tiff : TIFF) : Prop :=
  let osr1 := insert_property osr OPENSLIDE_PROPERTY_NAME_VENDOR "ventana" in
  _openslide_try_ventana osr tiff =
  match TIFFReadDirectory tiff with
  | Some tiff' => after_loop (run_loop osr1 tiff' [])
  | None => after_loop (Continue osr1 [])
  end.

(** The order the sort leaves the list in: wider first, and among levels
    of one width the later directory first. *)
Definition wider_first (a b : level) : Prop :=
  width b < width a \/ (width a = width b /\ directory b < directory a).

(** The order the loop builds the list in: it prepends as the directory
    number grows. *)
Definition later_first (a b : level) : Prop := directory b < directory a.

(** What the list of levels holds when the loop, started on [tiff], is
    about to look at directory [dir]: earlier directories other than 0 and
    1, each with its own width tag, the latest first. *)
Definition recorded (tiff : TIFF) (dir : Z) (level_list : list level) : Prop :=
  Forall (fun l =>
            directory l < dir /\ directory l <> 0 /\ directory l <> 1 /\
            width_of tiff (directory l) = Some (width l)) level_list /\
  StronglySorted later_first level_list.

(** A result of the loop body as a caller without [osr] sees it. *)
Definition detection_only (r : body_result) : body_result :=
  match r with
  | Continue _ level_list => Continue None level_list
  | Fail e _ => Fail e None
  end.

End Driver.

(** ** A runtime and slides to run the driver on *)

Module Sample.

(** A toy libxml2: a document is the list of its scan-info nodes, a node
    the list of its attributes.  A text parses when it has an EncodeInfo
    element; every iScan tag in it is a node. *)
Fixpoint count_iscan (s : string) : nat :=
  match s with
  | EmptyString => 0%nat
  | String _ s' =>
      match GRegex.literal "<iScan " s with
      | Some _ => S (count_iscan s')
      | None => count_iscan s'
      end
  end.

Definition read_memory (s : string) : option (list (list (string * string))) :=
  match strstr s "<EncodeInfo>" with
  | Some _ =>
      Some (repeat [("Magnification", "20"); ("ScanRes", "0.25")]
              (count_iscan s))
  | None => None
  end.

Definition eval_expression (xpath : string)
  (doc : list (list (string * string)))
  : option (option (list (list (string * string)))) :=
  if String.eqb xpath "/EncodeInfo/SlideInfo/iScan" then Some (Some doc)
  else Some None.

Fixpoint get_prop (node : list (string * string)) (name : string)
  : option string :=
  match node with
  | [] => None
  | (k, v) :: rest => if String.eqb k name then Some v else get_prop rest name
  end.

(** Uncompressed, LZW and JPEG are configured. *)
Definition codec_configured (compression : Z) : bool :=
  (compression =? 1) || (compression =? 5) || (compression =? 7).

(** An associated image is the number of the directory it is read from;
    a directory without a width cannot be registered. *)
Definition add_tiff_associated_image (ht : option (gmap string Z))
  (name : string) (tiff : TIFF) : option GError * option (gmap string Z) :=
  match TIFFGetField tiff TIFFTAG_IMAGEWIDTH with
  | None =>
      (Some (g_set_error OPENSLIDE_ERROR_BAD_DATA
               "Cannot get associated image width"), ht)
  | Some _ =>
      (None,
       match ht with
       | Some t => Some (<[name := TIFFCurrentDirectory tiff]> t)
       | None => None
       end)
  end.

Definition duplicate_prop (ht : gmap string string) (src dest : string)
  : gmap string string :=
  match ht !! src with
  | Some v => <[dest := v]> ht
  | None => ht
  end.

Definition runtime : Runtime := {|
  xmlDoc := list (list (string * string));
  xmlNode := list (string * string);
  xmlReadMemory := read_memory;
  xmlXPathEvalExpression := eval_expression;
  xmlGetProp := get_prop;
  xmlNodeGetContent := fun _ => None;
  TIFFIsCODECConfigured := codec_configured;
  associated_image := Z;
  _openslide_add_tiff_associated_image := add_tiff_associated_image;
  _openslide_duplicate_int_prop := duplicate_prop;
  _openslide_duplicate_double_prop := duplicate_prop;
  OPENSLIDE_PROPERTY_NAME_VENDOR := "openslide.vendor";
  OPENSLIDE_PROPERTY_NAME_OBJECTIVE_POWER := "openslide.objective-power";
  OPENSLIDE_PROPERTY_NAME_MPP_X := "openslide.mpp-x";
  OPENSLIDE_PROPERTY_NAME_MPP_Y := "openslide.mpp-y"
|}.

(** A tiled JPEG directory. *)
Definition tiled (w : Z) (desc xml : option string) : tiff_directory :=
  {| dir_is_tiled := true;
     TIFFTAG_IMAGEWIDTH := Some w;
     TIFFTAG_IMAGEDESCRIPTION := desc;
     TIFFTAG_COMPRESSION := Some 7;
     TIFFTAG_XMLPACKET := xml |}.

Definition stripped (w : Z) : tiff_directory :=
  {| dir_is_tiled := false;
     TIFFTAG_IMAGEWIDTH := Some w;
     TIFFTAG_IMAGEDESCRIPTION := None;
     TIFFTAG_COMPRESSION := Some 7;
     TIFFTAG_XMLPACKET := None |}.

(** A handle on the first directory of a file. *)
Definition opened (d : tiff_directory) (rest : list tiff_directory) : TIFF :=
  {| tif_curdir := 0; tif_dir := d; tif_next := rest |}.

Definition label : tiff_directory := tiled 1024 (Some "Label Image") None.
Definition thumbnail : tiff_directory := tiled 2048 (Some "Thumbnail") None.

Definition iscan_xml : string :=
  "<EncodeInfo><SlideInfo><iScan Magnification='20' ScanRes='0.25'/></SlideInfo></EncodeInfo>".

Definition two_iscan_xml : string :=
  "<EncodeInfo><SlideInfo><iScan Magnification='20'/><iScan Magnification='40'/></SlideInfo></EncodeInfo>".

(** Label, thumbnail, and two levels of the pyramid. *)
Definition slide : TIFF :=
  opened label
    [thumbnail;
     tiled 100000 (Some "level=0 mag=20 quality=95") (Some iscan_xml);
     tiled 25000 (Some "level=1 mag=5 quality=95") None].

(** The same, the base level without its XML packet. *)
Definition slide_without_xml : TIFF :=
  opened label
    [thumbnail;
     tiled 100000 (Some "level=0 mag=20 quality=95") None;
     tiled 25000 (Some "level=1 mag=5 quality=95") None].

(** Label and thumbnail only. *)
Definition slide_without_levels : TIFF := opened label [thumbnail].

(** Two levels of the same width. *)
Definition slide_equal_widths : TIFF :=
  opened label
    [thumbnail;
     tiled 4096 (Some "level=0 mag=20 quality=95") None;
     tiled 4096 (Some "level=1 mag=20 quality=95") None].

(** The second level is JPEG 2000 (34712), which is not configured. *)
Definition slide_jpeg2000 : TIFF :=
  opened label
    [thumbnail;
     tiled 100000 (Some "level=0 mag=20 quality=95") None;
     {| dir_is_tiled := true;
        TIFFTAG_IMAGEWIDTH := Some 25000;
        TIFFTAG_IMAGEDESCRIPTION := Some "level=1 mag=5 quality=95";
        TIFFTAG_COMPRESSION := Some 34712;
        TIFFTAG_XMLPACKET := None |}].

(** The first directory is stripped, the rest is [slide]. *)
Definition slide_stripped_first : TIFF :=
  opened (stripped 1024)
    [thumbnail;
     tiled 100000 (Some "level=0 mag=20 quality=95") (Some iscan_xml);
     tiled 25000 (Some "level=1 mag=5 quality=95") None].

(** The second directory has no width tag. *)
Definition slide_thumbnail_without_width : TIFF :=
  opened label
    [{| dir_is_tiled := true;
        TIFFTAG_IMAGEWIDTH := None;
        TIFFTAG_IMAGEDESCRIPTION := Some "Thumbnail";
        TIFFTAG_COMPRESSION := Some 7;
        TIFFTAG_XMLPACKET := None |};
     tiled 100000 (Some "level=0 mag=20 quality=95") (Some iscan_xml)].

(** The handle of [slide_jpeg2000] once it is on directory 3. *)
Definition on_jpeg2000_level : TIFF :=
  {| tif_curdir := 3;
     tif_dir :=
       {| dir_is_tiled := true;
          TIFFTAG_IMAGEWIDTH := Some 25000;
          TIFFTAG_IMAGEDESCRIPTION := Some "level=1 mag=5 quality=95";
          TIFFTAG_COMPRESSION := Some 34712;
          TIFFTAG_XMLPACKET := None |};
     tif_next := [] |}.

(** The handle of [slide_thumbnail_without_width] once it is on
    directory 1. *)
Definition on_thumbnail_without_width : TIFF :=
  {| tif_curdir := 1;
     tif_dir :=
       {| dir_is_tiled := true;
          TIFFTAG_IMAGEWIDTH := None;
          TIFFTAG_IMAGEDESCRIPTION := Some "Thumbnail";
          TIFFTAG_COMPRESSION := Some 7;
          TIFFTAG_XMLPACKET := None |};
     tif_next :=
       [tiled 100000 (Some "level=0 mag=20 quality=95") (Some iscan_xml)] |}.

Definition empty_osr : openslide_t (RT := runtime) :=
  {| properties := ∅; associated_images := ∅ |}.

End Sample.

(** ** Vocabulary of further properties *)



(** The property names and the attributes of the iScan element they are
    read from, in the order of the calls in [parse_xml_description]. *)
Definition ventana_attributes : list (string * string) :=
  [("ventana.magnification", "Magnification");
   ("ventana.resolution", "ScanRes");
   ("ventana.device-model", "UnitNumber");
   ("ventana.build-version", "BuildVersion");
   ("ventana.build-date", "BuildDate");
   ("ventana.slide-annotation", "SlideAnnotation");
   ("ventana.show-label", "ShowLabel");
   ("ventana.label-boundary", "LabelBoundary");
   ("ventana.z-layers", "Z-layers");
   ("ventana.z-spacing", "Z-spacing");
   ("ventana.focus-mode", "FocusMode");
   ("ventana.focus-quality", "FocusQuality");
   ("ventana.scan-mode", "ScanMode")].

Section Vocabulary.

Context `{RT : Runtime}.

(** The first node an XPath query matches, if it matches any. *)
Definition first_match (xpath : string) (context : xmlDoc) : option xmlNode :=
  match xmlXPathEvalExpression xpath context with
  | Some (Some (node0 :: _)) => Some node0
  | _ => None
  end.

(** Every attribute of [node] named in [attributes] copied to its
    property, in order; an attribute the node lacks leaves its property as
    it is. *)
Definition copy_attributes (node : xmlNode)
  (attributes : list (string * string)) (p : gmap string string)
  : gmap string string :=
  fold_left
    (fun p na =>
       match xmlGetProp node (snd na) with
       | Some str => <[fst na := str]> p
       | None => p
       end)
    attributes p.

(** The three standard properties derived at the end of
    [parse_xml_description]. *)
Definition derive_standard (p : gmap string string) : gmap string string :=
  _openslide_duplicate_double_prop
    (_openslide_duplicate_double_prop
       (_openslide_duplicate_int_prop p "ventana.magnification"
          OPENSLIDE_PROPERTY_NAME_OBJECTIVE_POWER)
       "ventana.resolution" OPENSLIDE_PROPERTY_NAME_MPP_X)
    "ventana.resolution" OPENSLIDE_PROPERTY_NAME_MPP_Y.

(** The four filters of [level_candidate], for the directory [d]
    numbered [n]. *)
Definition passes_filters (n : Z) (d : tiff_directory) : Prop :=
  dir_is_tiled d = true /\
  TIFFTAG_IMAGEWIDTH d <> None /\
  n <> 0 /\ n <> 1 /\
  exists imageDesc,
    TIFFTAG_IMAGEDESCRIPTION d = Some imageDesc /\
    find_property imageDesc "level" false <> None.


(** The errors the driver raises itself and the way it passes on those of
    the associated-image collaborator. *)
Definition driver_error (e : GError) : Prop :=
  e = g_set_error OPENSLIDE_ERROR_FORMAT_NOT_SUPPORTED "TIFF is not tiled" \/
  e = g_set_error OPENSLIDE_ERROR_BAD_DATA "Can't read compression scheme" \/
  (exists compression : Z,
      TIFFIsCODECConfigured compression = false /\
      e = g_set_error OPENSLIDE_ERROR_BAD_DATA
            ("Unsupported TIFF compression: " +:+ pretty compression)) \/
  (exists e0,
      e = g_prefix_error e0 "Can't read associated label image: " \/
      e = g_prefix_error e0 "Can't read associated thumbnail image: ").

End Vocabulary.

(** A runtime whose associated-image collaborator cannot read a thumbnail. *)
Module SampleFailing.

Definition add_tiff_associated_image (ht : option (gmap string Z))
  (name : string) (tiff : TIFF) : option GError * option (gmap string Z) :=
  if String.eqb name "thumbnail" then
    (Some (g_set_error (ERROR_ELSEWHERE "tiff" 5) "Cannot read image data"),
     ht)
  else Sample.add_tiff_associated_image ht name tiff.

Definition runtime : Runtime := {|
  xmlDoc := list (list (string * string));
  xmlNode := list (string * string);
  xmlReadMemory := Sample.read_memory;
  xmlXPathEvalExpression := Sample.eval_expression;
  xmlGetProp := Sample.get_prop;
  xmlNodeGetContent := fun _ => None;
  TIFFIsCODECConfigured := Sample.codec_configured;
  associated_image := Z;
  _openslide_add_tiff_associated_image := add_tiff_associated_image;
  _openslide_duplicate_int_prop := Sample.duplicate_prop;
  _openslide_duplicate_double_prop := Sample.duplicate_prop;
  OPENSLIDE_PROPERTY_NAME_VENDOR := "openslide.vendor";
  OPENSLIDE_PROPERTY_NAME_OBJECTIVE_POWER := "openslide.objective-power";
  OPENSLIDE_PROPERTY_NAME_MPP_X := "openslide.mpp-x";
  OPENSLIDE_PROPERTY_NAME_MPP_Y := "openslide.mpp-y"
|}.

Definition empty_osr : openslide_t (RT := runtime) :=
  {| properties := ∅; associated_images := ∅ |}.

(** The handle of [Sample.slide] once it is on directory 1. *)
Definition on_thumbnail : TIFF :=
  {| tif_curdir := 1;
     tif_dir := Sample.thumbnail;
     tif_next :=
       [Sample.tiled 100000 (Some "level=0 mag=20 quality=95")
          (Some Sample.iscan_xml);
        Sample.tiled 25000 (Some "level=1 mag=5 quality=95") None] |}.

End SampleFailing.

(** * Properties *)

(** ** What [find_property] hands back *)

Section RegexFacts.

Variable match_at : string -> option string.

Lemma fetch_0_matched (s v : string) :
  GRegex.fetch_0 match_at s = Some v ->
  exists rest, match_at rest = Some v.
Proof.
  induction s as [|c s IH]; simpl.
  - destruct (match_at EmptyString) eqn:E; [|discriminate].
    intros [= <-]. eauto.
  - destruct (match_at (String c s)) eqn:E.
    + intros [= <-]. eauto.
    + exact IH.
Qed.

End RegexFacts.

Lemma match_unquoted_shape (prop_name s v : string) :
  GRegex.match_unquoted prop_name s = Some v ->
  exists c, v = prop_name +:+ "=" +:+ String c EmptyString.
Proof.
  unfold GRegex.match_unquoted, GRegex.lazy_nonspace.
  destruct (GRegex.literal _ s) as [[|c rest]|]; try discriminate.
  destruct (GRegex.is_space c); [discriminate|].
  intros [= <-]. eauto.
Qed.

(** In the unquoted mode the value handed back is the key, the equals sign
    and one character. *)
Lemma find_property_unquoted_shape (s prop_name v : string) :
  find_property s prop_name false = Some v ->
  exists c, v = prop_name +:+ "=" +:+ String c EmptyString.
Proof.
  unfold find_property. intros H.
  apply fetch_0_matched in H as [rest H].
  eapply match_unquoted_shape, H.
Qed.

(** The comparison of the level value with the text 0 never succeeds. *)
Lemma level_value_is_never_0 (imageDesc level_value : string) :
  find_property imageDesc "level" false = Some level_value ->
  String.eqb level_value "0" = false.
Proof.
  intros H. apply find_property_unquoted_shape in H as [c ->]. reflexivity.
Qed.

(** C1. The scanner does not hand back the value of the token: it fetches
    sub-pattern 0, the whole match.  Without quotes that is the key, the
    equals sign and, the quantifier being lazy, the first character of the
    value; with quotes the key, the equals sign and the value between its
    quote characters. *)
Theorem C1_find_property_fetches_whole_match :
  find_property "level=0 mag=20" "level" false = Some "level=0" /\
  find_property "level=12 mag=20" "level" false = Some "level=1" /\
  find_property "name='label' level=0" "name" true = Some "name='label'".
Proof. repeat split; reflexivity. Qed.

(** ** The sort *)

Section SortFacts.

Context {A : Type} (cmp : A -> A -> Z).

Lemma g_list_sort_merge_nil_r (l1 : list A) :
  GList.g_list_sort_merge cmp l1 [] = l1.
Proof. destruct l1; reflexivity. Qed.

Lemma g_list_sort_merge_cons (a b : A) (l1 l2 : list A) :
  GList.g_list_sort_merge cmp (a :: l1) (b :: l2) =
  if cmp a b <=? 0
  then a :: GList.g_list_sort_merge cmp l1 (b :: l2)
  else b :: GList.g_list_sort_merge cmp (a :: l1) l2.
Proof. reflexivity. Qed.

Lemma g_list_sort_merge_perm (l1 l2 : list A) :
  Permutation (GList.g_list_sort_merge cmp l1 l2) (l1 ++ l2).
Proof.
  revert l2. induction l1 as [|a l1 IH1]; intros l2.
  - destruct l2; reflexivity.
  - induction l2 as [|b l2 IH2].
    + rewrite g_list_sort_merge_nil_r, app_nil_r. reflexivity.
    + rewrite g_list_sort_merge_cons. destruct (cmp a b <=? 0).
      * simpl. apply perm_skip, IH1.
      * rewrite IH2. apply Permutation_middle.
Qed.

(** Induction along the recursion of [g_list_sort_real]. *)
Lemma halving_ind (P : list A -> Prop) :
  P [] ->
  (forall x, P [x]) ->
  (forall x y tl,
      P (take (Nat.div2 (length (x :: y :: tl))) (x :: y :: tl)) ->
      P (drop (Nat.div2 (length (x :: y :: tl))) (x :: y :: tl)) ->
      P (x :: y :: tl)) ->
  forall l, P l.
Proof.
  intros Hnil Hone Hcut l.
  remember (length l) as n eqn:Hn. revert l Hn.
  induction n as [n IH] using lt_wf_ind. intros l Hn.
  destruct l as [|x [|y tl]]; [exact Hnil | apply Hone |].
  assert (Hh : (0 < Nat.div2 (length (x :: y :: tl)) < length (x :: y :: tl))%nat).
  { rewrite Nat.div2_div.
    pose proof (Nat.div_mod_eq (length (x :: y :: tl)) 2) as E.
    pose proof (Nat.mod_upper_bound (length (x :: y :: tl)) 2).
    cbn [length] in *. lia. }
  apply Hcut.
  - eapply IH; [|reflexivity]. rewrite length_take. lia.
  - eapply IH; [|reflexivity]. rewrite length_drop. lia.
Qed.

Lemma g_list_sort_real_perm (l : list A) :
  Permutation (GList.g_list_sort_real cmp l) l.
Proof.
  induction l as [| |x y tl IH1 IH2] using halving_ind.
  - reflexivity.
  - reflexivity.
  - rewrite GList.g_list_sort_real_equation_3, g_list_sort_merge_perm.
    rewrite IH1, IH2. rewrite take_drop. reflexivity.
Qed.

Variable R : A -> A -> Prop.

Lemma g_list_sort_merge_HdRel (x : A) (l1 l2 : list A) :
  HdRel R x l1 -> HdRel R x l2 ->
  HdRel R x (GList.g_list_sort_merge cmp l1 l2).
Proof.
  intros H1 H2. destruct l1 as [|a l1]; [destruct l2; exact H2|].
  destruct l2 as [|b l2]; [exact H1|].
  rewrite g_list_sort_merge_cons.
  destruct (cmp a b <=? 0); constructor.
  - inversion H1; assumption.
  - inversion H2; assumption.
Qed.

(** Merging keeps two sorted lists sorted when the comparison agrees with
    [R] across the two lists: left before right unless the comparison is
    positive. *)
Lemma g_list_sort_merge_sorted (l1 l2 : list A) :
  (forall a b, In a l1 -> In b l2 -> cmp a b <= 0 -> R a b) ->
  (forall a b, In a l1 -> In b l2 -> 0 < cmp a b -> R b a) ->
  Sorted R l1 -> Sorted R l2 ->
  Sorted R (GList.g_list_sort_merge cmp l1 l2).
Proof.
  revert l2. induction l1 as [|a l1 IH1]; intros l2 Hle Hgt S1 S2.
  - destruct l2; exact S2.
  - induction l2 as [|b l2 IH2].
    + rewrite g_list_sort_merge_nil_r. exact S1.
    + rewrite g_list_sort_merge_cons.
      apply Sorted_inv in S1 as S1'. destruct S1' as [S1t H1].
      apply Sorted_inv in S2 as S2'. destruct S2' as [S2t H2].
      destruct (Z.leb_spec (cmp a b) 0) as [Hc|Hc].
      * constructor.
        -- apply IH1; auto; intros; [apply Hle | apply Hgt]; simpl; auto.
        -- apply g_list_sort_merge_HdRel; [exact H1|].
           constructor. apply Hle; simpl; auto.
      * constructor.
        -- apply IH2; auto; intros; [apply Hle | apply Hgt]; simpl in *; auto.
        -- apply g_list_sort_merge_HdRel; [|exact H2].
           constructor. apply Hgt; simpl; auto.
Qed.

(** The sort is stable: if [before] holds from each cell of the input to
    every later cell, and the comparison agrees with [R] on such pairs,
    the output is sorted by [R]. *)
Lemma g_list_sort_real_sorted (before : A -> A -> Prop) (l : list A) :
  (forall a b, before a b -> cmp a b <= 0 -> R a b) ->
  (forall a b, before a b -> 0 < cmp a b -> R b a) ->
  StronglySorted before l ->
  Sorted R (GList.g_list_sort_real cmp l).
Proof.
  intros Hle Hgt.
  induction l as [| |x y tl IH1 IH2] using halving_ind; intros HS.
  - rewrite GList.g_list_sort_real_equation_1. constructor.
  - rewrite GList.g_list_sort_real_equation_2. repeat constructor.
  - rewrite GList.g_list_sort_real_equation_3.
    set (h := Nat.div2 (length (x :: y :: tl))) in *.
    rewrite <- (take_drop h (x :: y :: tl)) in HS.
    apply g_list_sort_merge_sorted.
    + intros a b Ha Hb. apply Hle.
      apply (Permutation_in _ (g_list_sort_real_perm _)) in Ha.
      apply (Permutation_in _ (g_list_sort_real_perm _)) in Hb.
      eapply StronglySorted_app_1_elem_of; [exact HS| |];
        apply list_elem_of_In; assumption.
    + intros a b Ha Hb. apply Hgt.
      apply (Permutation_in _ (g_list_sort_real_perm _)) in Ha.
      apply (Permutation_in _ (g_list_sort_real_perm _)) in Hb.
      eapply StronglySorted_app_1_elem_of; [exact HS| |];
        apply list_elem_of_In; assumption.
    + apply IH1. eapply StronglySorted_app_1_l; exact HS.
    + apply IH2. eapply StronglySorted_app_1_r; exact HS.
Qed.

End SortFacts.

(** ** The loop *)

Section LoopFacts.

Context `{RT : Runtime}.

Lemma run_loop_unfold (osr : option openslide_t) (tiff : TIFF)
  (level_list : list level) :
  run_loop osr tiff level_list =
  match loop_body osr tiff level_list with
  | Fail e osr' => Fail e osr'
  | Continue osr' level_list' =>
      match TIFFReadDirectory tiff with
      | Some tiff' => run_loop osr' tiff' level_list'
      | None => Continue osr' level_list'
      end
  end.
Proof.
  destruct tiff as [dir d [|d' next]]; reflexivity.
Qed.

(** A run that arrives at a state ends as the run started there does. *)
Lemma at_loop_top_run start here :
  at_loop_top start here ->
  run_loop (snd (fst start)) (fst (fst start)) (snd start) =
  run_loop (snd (fst here)) (fst (fst here)) (snd here).
Proof.
  induction 1 as [|tiff osr level_list osr' level_list' tiff' _ IH Hbody Hnext].
  - reflexivity.
  - rewrite IH. simpl. rewrite (run_loop_unfold osr), Hbody, Hnext.
    reflexivity.
Qed.

Lemma advance_at_loop_top start (n : nat) :
  forall tiff osr level_list here,
    at_loop_top start (tiff, osr, level_list) ->
    advance n tiff osr level_list = Some here ->
    at_loop_top start here.
Proof.
  induction n as [|n IH]; intros tiff osr level_list here Hat; simpl.
  - intros [= <-]. exact Hat.
  - destruct (loop_body osr tiff level_list) as [osr' level_list'|] eqn:Hbody;
      [|discriminate].
    destruct (TIFFReadDirectory tiff) as [tiff'|] eqn:Hnext; [|discriminate].
    apply IH. eapply at_next; eassumption.
Qed.

(** A pass through the body leaves the list alone or prepends the current
    directory, which is then tiled, has the width recorded, and is neither
    directory 0 nor directory 1. *)
Lemma loop_body_levels (osr osr' : option openslide_t) (tiff : TIFF)
  (level_list level_list' : list level) :
  loop_body osr tiff level_list = Continue osr' level_list' ->
  level_list' = level_list \/
  exists w,
    level_list' = {| directory := tif_curdir tiff; width := w |} :: level_list /\
    TIFFTAG_IMAGEWIDTH (tif_dir tiff) = Some w /\
    tif_curdir tiff <> 0 /\ tif_curdir tiff <> 1.
Proof.
  unfold loop_body, filter_associated, TIFFGetField, TIFFCurrentDirectory.
  destruct (negb (TIFFIsTiled tiff)); [intros [= _ <-]; auto|].
  destruct (TIFFTAG_IMAGEWIDTH (tif_dir tiff)) as [w|]; [|intros [= _ <-]; auto].
  destruct (Z.eqb_spec (tif_curdir tiff) 0) as [|H0].
  { destruct (add_associated_image _ _ _) as [[err|] ht]; [discriminate|].
    intros [= _ <-]; auto. }
  destruct (Z.eqb_spec (tif_curdir tiff) 1) as [|H1].
  { destruct (add_associated_image _ _ _) as [[err|] ht]; [discriminate|].
    intros [= _ <-]; auto. }
  destruct (TIFFTAG_IMAGEDESCRIPTION (tif_dir tiff)) as [imageDesc|];
    [|intros [= _ <-]; auto].
  destruct (find_property imageDesc "level" false) as [level_value|] eqn:Hlevel;
    [|intros [= _ <-]; auto].
  destruct (TIFFTAG_COMPRESSION (tif_dir tiff)) as [compression|];
    [|discriminate].
  destruct (negb (TIFFIsCODECConfigured compression)); [discriminate|].
  rewrite (level_value_is_never_0 _ _ Hlevel).
  intros [= _ <-]. right. exists w. auto.
Qed.

(** A level candidate that can be decoded is pushed whatever its XML packet
    holds: the packet is not looked at. *)
Lemma loop_body_pushes_candidate (osr : option openslide_t) (tiff : TIFF)
  (level_list : list level) (w compression : Z) :
  level_candidate tiff ->
  TIFFGetField tiff TIFFTAG_IMAGEWIDTH = Some w ->
  TIFFGetField tiff TIFFTAG_COMPRESSION = Some compression ->
  TIFFIsCODECConfigured compression = true ->
  loop_body osr tiff level_list =
  Continue osr ({| directory := tif_curdir tiff; width := w |} :: level_list).
Proof.
  intros (Ht & _ & H0 & H1 & imageDesc & Hdesc & Hlevel) Hw Hc Hcodec.
  unfold loop_body. rewrite Ht, Hw, Hdesc, Hc, Hcodec. cbn [negb].
  apply Z.eqb_neq in H0, H1. rewrite H0, H1.
  destruct (find_property imageDesc "level" false) as [v|] eqn:E;
    [|congruence].
  rewrite (level_value_is_never_0 _ _ E). reflexivity.
Qed.

Lemma loop_body_undecodable (osr : option openslide_t) (tiff : TIFF)
  (level_list : list level) :
  level_candidate tiff -> undecodable tiff ->
  exists msg,
    loop_body osr tiff level_list =
    Fail (g_set_error OPENSLIDE_ERROR_BAD_DATA msg) osr.
Proof.
  intros (Ht & Hw & H0 & H1 & imageDesc & Hdesc & Hlevel) Hu.
  unfold loop_body, undecodable in *. rewrite Ht, Hdesc. cbn [negb].
  destruct (TIFFGetField tiff TIFFTAG_IMAGEWIDTH) as [w|]; [|congruence].
  apply Z.eqb_neq in H0, H1. rewrite H0, H1.
  destruct (find_property imageDesc "level" false) as [v|]; [|congruence].
  destruct (TIFFGetField tiff TIFFTAG_COMPRESSION) as [compression|].
  - rewrite Hu. cbn [negb]. eauto.
  - eauto.
Qed.

End LoopFacts.

(** C2. A base level without the XML packet is accepted: on
    [Sample.slide_without_xml], whose directory 2 is described as level 0
    and carries no XML packet, the driver returns true and hands over the
    levels 2 and 3 (see [level_value_is_never_0] and
    [loop_body_pushes_candidate]: the value compared with 0 is the whole
    match, so the packet is never read). *)
Theorem C2_level_0_without_marker_is_accepted :
  _openslide_try_ventana (RT := Sample.runtime) None Sample.slide_without_xml =
  (Returns_true {| property_dir := 2; level_count := 2; levels := [2; 3] |},
   None).
Proof. vm_compute. reflexivity. Qed.

Section Claims.

Context `{RT : Runtime}.

(** C3. When the loop ends with an empty list of levels the driver does
    not fail with a bad-data error: it reads [levels[0]] from an array of
    zero elements. *)
Theorem C3_no_levels_reads_empty_array
  (osr osr' : option openslide_t) (tiff : TIFF) :
  TIFFIsTiled tiff = true ->
  run_loop (insert_property osr OPENSLIDE_PROPERTY_NAME_VENDOR "ventana")
    tiff [] = Continue osr' [] ->
  _openslide_try_ventana osr tiff = (Undefined, osr').
Proof.
  intros Ht Hloop. unfold _openslide_try_ventana.
  rewrite Ht. simpl. rewrite Hloop. reflexivity.
Qed.

(** C5. Once the XML text parses, [parse_xml_description] fails with a
    bad-data error whenever the scan-info query matches a number of nodes
    other than one, and returns true when it matches exactly one. *)
Theorem C5_scan_info_count_must_be_one
  (xml : string) (osr : option openslide_t) (context : xmlDoc) :
  xmlReadMemory xml = Some context ->
  (iscan_count context <> 1%nat ->
   parse_xml_description xml osr =
   inl (g_set_error OPENSLIDE_ERROR_BAD_DATA "Multiple iScan elements found"))
  /\
  (iscan_count context = 1%nat ->
   exists osr', parse_xml_description xml osr = inr osr').
Proof.
  intros Hdoc. unfold parse_xml_description, iscan_count, eval_xpath.
  rewrite Hdoc.
  destruct (xmlXPathEvalExpression VENTANA_ISCAN context)
    as [[[|node0 [|node1 rest]]|]|]; simpl; split; intros Hn;
    try reflexivity; try discriminate; try (exfalso; apply Hn; reflexivity);
    eauto.
Qed.

(** C6. When the loop arrives at a directory that passes the four filters
    of a level and whose compression tag cannot be read or names a codec
    that is not configured, the driver fails with a bad-data error,
    whatever list of levels it holds by then. *)
Theorem C6_undecodable_level_is_bad_data
  (osr osr_here : option openslide_t) (tiff here : TIFF)
  (level_list : list level) :
  TIFFIsTiled tiff = true ->
  at_loop_top
    (tiff, insert_property osr OPENSLIDE_PROPERTY_NAME_VENDOR "ventana", [])
    (here, osr_here, level_list) ->
  level_candidate here ->
  undecodable here ->
  exists msg,
    _openslide_try_ventana osr tiff =
    (Returns_false (g_set_error OPENSLIDE_ERROR_BAD_DATA msg), osr_here).
Proof.
  intros Ht Hat Hcand Hu.
  destruct (loop_body_undecodable osr_here here level_list Hcand Hu)
    as [msg Hbody].
  exists msg. unfold _openslide_try_ventana. rewrite Ht. simpl.
  pose proof (at_loop_top_run _ _ Hat) as Hrun. simpl in Hrun.
  rewrite Hrun, run_loop_unfold, Hbody. reflexivity.
Qed.

(** C7. When the directory the handle is on is not tiled the driver fails
    at once with a format-not-supported error and leaves [osr], with its
    properties and associated images, as it was. *)
Theorem C7_untiled_first_directory
  (osr : option openslide_t) (tiff : TIFF) :
  TIFFIsTiled tiff = false ->
  _openslide_try_ventana osr tiff =
  (Returns_false (g_set_error OPENSLIDE_ERROR_FORMAT_NOT_SUPPORTED
                    "TIFF is not tiled"), osr).
Proof.
  intros Ht. unfold _openslide_try_ventana. rewrite Ht. reflexivity.
Qed.

End Claims.

(** ** What the list of levels holds *)

Lemma directory_at_here (dir : Z) (d : tiff_directory)
  (next : list tiff_directory) :
  directory_at {| tif_curdir := dir; tif_dir := d; tif_next := next |} dir =
  Some d.
Proof.
  unfold directory_at. simpl. rewrite Z.ltb_irrefl, Z.sub_diag. reflexivity.
Qed.

Lemma directory_at_next (dir n : Z) (d d' : tiff_directory)
  (next : list tiff_directory) :
  dir + 1 <= n ->
  directory_at {| tif_curdir := dir + 1; tif_dir := d'; tif_next := next |} n =
  directory_at {| tif_curdir := dir; tif_dir := d; tif_next := d' :: next |} n.
Proof.
  intros Hn. unfold directory_at. simpl.
  destruct (Z.ltb_spec n (dir + 1)); [lia|].
  destruct (Z.ltb_spec n dir); [lia|].
  replace (Z.to_nat (n - dir)) with (S (Z.to_nat (n - (dir + 1)))) by lia.
  reflexivity.
Qed.

Lemma map_lookup {A B : Type} (f : A -> B) (l : list A) (i : nat) :
  map f l !! i = f <$> l !! i.
Proof.
  revert i. induction l as [|x l IH]; intros [|i]; simpl; auto.
Qed.

Lemma StronglySorted_lookup_lt {A : Type} (R : A -> A -> Prop) (l : list A)
  (i j : nat) (a b : A) :
  StronglySorted R l -> (i < j)%nat ->
  l !! i = Some a -> l !! j = Some b -> R a b.
Proof.
  intros HS Hij Ha Hb.
  rewrite <- (take_drop j l) in HS.
  eapply StronglySorted_app_1_elem_of; [exact HS| |].
  - apply list_elem_of_lookup. exists i. rewrite lookup_take_lt; assumption.
  - apply list_elem_of_lookup. exists 0%nat. rewrite lookup_drop.
    rewrite Nat.add_0_r. assumption.
Qed.

Lemma wider_first_transitive : Transitive wider_first.
Proof. unfold wider_first. intros a b c H1 H2. lia. Qed.

Lemma width_compare_nonpositive (a b : level) :
  later_first a b -> width_compare a b <= 0 -> wider_first a b.
Proof.
  unfold later_first, width_compare, wider_first.
  destruct (Z.gtb_spec (width a) (width b)); [lia|].
  destruct (Z.eqb_spec (width a) (width b)); lia.
Qed.

Lemma width_compare_positive (a b : level) :
  0 < width_compare a b -> wider_first b a.
Proof.
  unfold width_compare, wider_first.
  destruct (Z.gtb_spec (width a) (width b)); [lia|].
  destruct (Z.eqb_spec (width a) (width b)); lia.
Qed.

(** Sorting a list built latest-first leaves it wider-first, the later
    directory first among equal widths. *)
Lemma g_list_sort_wider_first (level_list : list level) :
  StronglySorted later_first level_list ->
  StronglySorted wider_first (GList.g_list_sort level_list width_compare).
Proof.
  intros HS. apply (@Sorted_StronglySorted _ _ wider_first_transitive).
  unfold GList.g_list_sort.
  apply (g_list_sort_real_sorted width_compare wider_first later_first);
    auto using width_compare_nonpositive, width_compare_positive.
Qed.

Section Invariant.

Context `{RT : Runtime}.

Lemma loop_body_recorded (tiff0 : TIFF) (osr osr' : option openslide_t)
  (tiff : TIFF) (level_list level_list' : list level) :
  directory_at tiff0 (tif_curdir tiff) = Some (tif_dir tiff) ->
  recorded tiff0 (tif_curdir tiff) level_list ->
  loop_body osr tiff level_list = Continue osr' level_list' ->
  recorded tiff0 (tif_curdir tiff + 1) level_list'.
Proof.
  intros Hat [Hall Hsorted] Hbody.
  assert (Hall' : Forall (fun l =>
            directory l < tif_curdir tiff + 1 /\ directory l <> 0 /\
            directory l <> 1 /\
            width_of tiff0 (directory l) = Some (width l)) level_list).
  { eapply Forall_impl; [exact Hall|]. simpl. intros l ?. intuition lia. }
  apply loop_body_levels in Hbody as [->|(w & -> & Hw & H0 & H1)].
  - split; assumption.
  - split.
    + constructor; [|assumption]. simpl. repeat split; try lia; try assumption.
      unfold width_of. rewrite Hat. exact Hw.
    + constructor; [assumption|].
      eapply Forall_impl; [exact Hall|]. unfold later_first. simpl.
      intros l ?. intuition lia.
Qed.

Lemma directory_loop_recorded (tiff0 : TIFF) (next : list tiff_directory) :
  forall (osr osr' : option openslide_t) (dir : Z) (d : tiff_directory)
         (level_list level_list' : list level),
    (forall n, dir <= n ->
       directory_at {| tif_curdir := dir; tif_dir := d; tif_next := next |} n =
       directory_at tiff0 n) ->
    recorded tiff0 dir level_list ->
    directory_loop osr dir d next level_list = Continue osr' level_list' ->
    exists dir', recorded tiff0 dir' level_list'.
Proof.
  induction next as [|d' next IH]; intros osr osr' dir d ll ll' Hat Hrec;
    simpl; destruct (loop_body osr _ ll) as [osr1 ll1|] eqn:Hbody;
    try discriminate.
  all: apply (loop_body_recorded tiff0) in Hbody; simpl;
    [| rewrite <- Hat, directory_at_here by lia; reflexivity | exact Hrec].
  - intros [= _ <-]. eauto.
  - apply IH; [|exact Hbody].
    intros n Hn. rewrite <- Hat by lia. apply directory_at_next. exact Hn.
Qed.

Lemma run_loop_recorded (osr osr' : option openslide_t) (tiff : TIFF)
  (level_list : list level) :
  run_loop osr tiff [] = Continue osr' level_list ->
  exists dir', recorded tiff dir' level_list.
Proof.
  unfold run_loop. destruct tiff as [dir d next]. simpl.
  apply directory_loop_recorded; [reflexivity|].
  split; constructor.
Qed.

Lemma sort_and_hand_off_levels (level_list : list level) (ops : tiff_ops) :
  sort_and_hand_off level_list = Returns_true ops ->
  levels ops = map directory (GList.g_list_sort level_list width_compare).
Proof.
  unfold sort_and_hand_off.
  destruct (map directory _) as [|levels_0 rest]; [discriminate|].
  intros [= <-]. reflexivity.
Qed.

(** A call that returns true went through the loop and handed over the
    sorted list. *)
Lemma returns_true_inv (osr osr' : option openslide_t) (tiff : TIFF)
  (ops : tiff_ops) :
  _openslide_try_ventana osr tiff = (Returns_true ops, osr') ->
  exists level_list dir',
    recorded tiff dir' level_list /\
    levels ops = map directory (GList.g_list_sort level_list width_compare).
Proof.
  unfold _openslide_try_ventana.
  destruct (negb (TIFFIsTiled tiff)); [discriminate|].
  destruct (run_loop _ tiff []) as [osr1 level_list|] eqn:Hloop; simpl;
    [|discriminate].
  intros [= Hops _].
  apply run_loop_recorded in Hloop as [dir' Hrec].
  exists level_list, dir'. split; [exact Hrec|].
  apply sort_and_hand_off_levels, Hops.
Qed.

(** C4, as the code has it.  When the driver returns true, every
    directory in the array it hands over has a width tag, these widths
    never increase along the array, and of two entries of equal width the
    one with the larger directory number comes first. *)
Theorem C4_levels_wider_first_then_later_directory_first
  (osr osr' : option openslide_t) (tiff : TIFF) (ops : tiff_ops) :
  _openslide_try_ventana osr tiff = (Returns_true ops, osr') ->
  (forall a, In a (levels ops) -> exists w, width_of tiff a = Some w) /\
  ordered_levels (fun a b => b < a) tiff (levels ops).
Proof.
  intros Hrun.
  apply returns_true_inv in Hrun as (level_list & dir' & [Hall Hlater] & ->).
  pose proof (g_list_sort_wider_first level_list Hlater) as Hsorted.
  assert (Hall' : forall l,
             In l (GList.g_list_sort level_list width_compare) ->
             width_of tiff (directory l) = Some (width l)).
  { rewrite List.Forall_forall in Hall. intros l Hl. apply Hall.
    eapply Permutation_in; [apply g_list_sort_real_perm | exact Hl]. }
  split.
  - intros a Ha. apply in_map_iff in Ha as (l & <- & Hl). eauto.
  - intros i j a b wa wb Hij Ha Hb Hwa Hwb.
    rewrite map_lookup in Ha, Hb.
    destruct (GList.g_list_sort level_list width_compare !! i) as [la|] eqn:Hla;
      [|discriminate].
    destruct (GList.g_list_sort level_list width_compare !! j) as [lb|] eqn:Hlb;
      [|discriminate].
    simpl in Ha, Hb. injection Ha as <-. injection Hb as <-.
    pose proof (StronglySorted_lookup_lt _ _ _ _ _ _ Hsorted Hij Hla Hlb)
      as Hab.
    rewrite (Hall' la) in Hwa
      by (apply list_elem_of_In, list_elem_of_lookup; eauto).
    rewrite (Hall' lb) in Hwb
      by (apply list_elem_of_In, list_elem_of_lookup; eauto).
    injection Hwa as <-. injection Hwb as <-.
    unfold wider_first in Hab. lia.
Qed.

(** C9. When the driver returns true, neither directory 0 nor directory 1
    is in the array it hands over (whether or not they were registered as
    label and thumbnail). *)
Theorem C9_fixed_directories_are_not_levels
  (osr osr' : option openslide_t) (tiff : TIFF) (ops : tiff_ops) :
  _openslide_try_ventana osr tiff = (Returns_true ops, osr') ->
  ~ In 0 (levels ops) /\ ~ In 1 (levels ops).
Proof.
  intros Hrun.
  apply returns_true_inv in Hrun as (level_list & dir' & [Hall _] & ->).
  rewrite List.Forall_forall in Hall.
  assert (Hin : forall n,
             In n (map directory (GList.g_list_sort level_list width_compare)) ->
             n <> 0 /\ n <> 1).
  { intros n Hn. apply in_map_iff in Hn as (l & <- & Hl).
    apply (Permutation_in _ (g_list_sort_real_perm _ _)) in Hl.
    destruct (Hall l Hl) as (_ & H0 & H1 & _). auto. }
  split; intros H; apply Hin in H; lia.
Qed.

End Invariant.

(** ** Detection-only mode *)

Section Detection.

Context `{RT : Runtime}.

Lemma set_prop_from_attribute_null
  (property_name xpath attribute_name : string) (context : xmlDoc) :
  set_prop_from_attribute None property_name xpath attribute_name context =
  None.
Proof.
  unfold set_prop_from_attribute.
  destruct (eval_xpath xpath context) as [[|node0 rest]|]; try reflexivity.
  destruct (xmlGetProp node0 attribute_name); reflexivity.
Qed.

(** Whether the XML is accepted does not depend on [osr]. *)
Lemma parse_xml_description_null (xml : string) (osr : option openslide_t) :
  parse_xml_description xml None =
  match parse_xml_description xml osr with
  | inl e => inl e
  | inr _ => inr None
  end.
Proof.
  unfold parse_xml_description.
  destruct (xmlReadMemory xml) as [context|]; [|reflexivity].
  destruct (eval_xpath VENTANA_ISCAN context) as [nodeTab|]; [|reflexivity].
  destruct (negb (length nodeTab =? 1)%nat); [reflexivity|].
  cbv zeta beta. rewrite !set_prop_from_attribute_null. reflexivity.
Qed.

Hypothesis Hverdict : verdict_ignores_table.

Lemma filter_associated_null (osr : option openslide_t) (name prefix : string)
  (tiff : TIFF) (level_list : list level) :
  filter_associated None name prefix tiff level_list =
  detection_only (filter_associated osr name prefix tiff level_list).
Proof.
  unfold filter_associated, add_associated_image. simpl.
  destruct osr as [o|]; simpl.
  - pose proof (Hverdict (associated_images o) name tiff) as Hv.
    destruct (_openslide_add_tiff_associated_image None name tiff)
      as [err1 ht1].
    destruct (_openslide_add_tiff_associated_image
                (Some (associated_images o)) name tiff) as [err2 ht2].
    simpl in Hv. subst err2. destruct err1; reflexivity.
  - destruct (_openslide_add_tiff_associated_image None name tiff)
      as [[err|] ht]; reflexivity.
Qed.

Lemma loop_body_null (osr : option openslide_t) (tiff : TIFF)
  (level_list : list level) :
  loop_body None tiff level_list =
  detection_only (loop_body osr tiff level_list).
Proof.
  unfold loop_body.
  destruct (negb (TIFFIsTiled tiff)); [reflexivity|].
  destruct (TIFFGetField tiff TIFFTAG_IMAGEWIDTH) as [w|]; [|reflexivity].
  destruct (TIFFCurrentDirectory tiff =? 0); [apply filter_associated_null|].
  destruct (TIFFCurrentDirectory tiff =? 1); [apply filter_associated_null|].
  destruct (TIFFGetField tiff TIFFTAG_IMAGEDESCRIPTION) as [imageDesc|];
    [|reflexivity].
  destruct (find_property imageDesc "level" false) as [level_value|];
    [|reflexivity].
  destruct (TIFFGetField tiff TIFFTAG_COMPRESSION) as [compression|];
    [|reflexivity].
  destruct (negb (TIFFIsCODECConfigured compression)); [reflexivity|].
  destruct (String.eqb level_value "0"); [|reflexivity].
  destruct (TIFFGetField tiff TIFFTAG_XMLPACKET) as [xmpData|]; [|reflexivity].
  destruct (strstr xmpData "<iScan"); [|reflexivity].
  rewrite (parse_xml_description_null xmpData osr).
  destruct (parse_xml_description xmpData osr); reflexivity.
Qed.

Lemma directory_loop_null (next : list tiff_directory) :
  forall (osr : option openslide_t) (dir : Z) (d : tiff_directory)
         (level_list : list level),
    directory_loop None dir d next level_list =
    detection_only (directory_loop osr dir d next level_list).
Proof.
  induction next as [|d' next IH]; intros osr dir d level_list; simpl;
    rewrite (loop_body_null osr);
    destruct (loop_body osr _ level_list) as [osr1 ll1|]; simpl;
    auto.
Qed.

Lemma after_loop_detection_only (r : body_result) :
  fst (after_loop (detection_only r)) = fst (after_loop r) /\
  snd (after_loop (detection_only r)) = None.
Proof. destruct r; split; reflexivity. Qed.

(** C8. Provided the verdict of the associated-image collaborator does not
    depend on whether it is handed a table, a call without [osr] ends as
    the call with [osr] does (the same return value, the same error, the
    same array of levels handed over) and leaves no [osr] behind. *)
Theorem C8_detection_only_agrees (o : openslide_t) (tiff : TIFF) :
  fst (_openslide_try_ventana None tiff) =
  fst (_openslide_try_ventana (Some o) tiff) /\
  snd (_openslide_try_ventana None tiff) = None.
Proof.
  unfold _openslide_try_ventana.
  destruct (negb (TIFFIsTiled tiff)); [split; reflexivity|].
  cbv zeta. unfold run_loop.
  rewrite (directory_loop_null _
             (insert_property (Some o) OPENSLIDE_PROPERTY_NAME_VENDOR "ventana")).
  apply after_loop_detection_only.
Qed.

End Detection.

(** ** The fixed directories *)

Section FixedDirectories.

Context `{RT : Runtime}.

(** C10, as the code has it.  A directory 0 or 1 that is not tiled or has
    no width tag is never offered for registration: the loop body passes
    it over with [osr] and the list of levels as they were, whatever the
    registration would have done, and the loop goes on with the next
    directory.  A fresh call on such a directory passes it over when it is
    tiled; when it is not tiled the call fails with a format-not-supported
    error before the loop, [osr] untouched. *)
Theorem C10_fixed_directories_need_tiles_and_width (tiff : TIFF) :
  TIFFCurrentDirectory tiff = 0 \/ TIFFCurrentDirectory tiff = 1 ->
  TIFFIsTiled tiff = false \/ TIFFGetField tiff TIFFTAG_IMAGEWIDTH = None ->
  (forall osr level_list,
      loop_body osr tiff level_list = Continue osr level_list /\
      run_loop osr tiff level_list =
      match TIFFReadDirectory tiff with
      | Some tiff' => run_loop osr tiff' level_list
      | None => Continue osr level_list
      end) /\
  (forall osr, TIFFIsTiled tiff = true -> passed_over osr tiff) /\
  (forall osr, TIFFIsTiled tiff = false ->
      _openslide_try_ventana osr tiff =
      (Returns_false (g_set_error OPENSLIDE_ERROR_FORMAT_NOT_SUPPORTED
                        "TIFF is not tiled"), osr)).
Proof.
  intros _ Hskip.
  assert (Hbody : forall osr level_list,
             loop_body osr tiff level_list = Continue osr level_list).
  { intros osr level_list. unfold loop_body.
    destruct (TIFFIsTiled tiff); [|reflexivity].
    destruct Hskip as [H|H]; [discriminate|].
    cbn [negb]. rewrite H. reflexivity. }
  repeat split.
  - apply Hbody.
  - rewrite run_loop_unfold, Hbody. reflexivity.
  - intros osr Ht. unfold passed_over, _openslide_try_ventana.
    rewrite Ht. cbv zeta. cbn [negb].
    rewrite run_loop_unfold, Hbody.
    destruct (TIFFReadDirectory tiff); reflexivity.
  - intros osr Ht. unfold _openslide_try_ventana. rewrite Ht. reflexivity.
Qed.

End FixedDirectories.

(** ** The driver on the sample slides *)

Section Runs.

Import Sample.

Local Existing Instance runtime.

(** On a slide with label, thumbnail and two levels the driver returns
    true with the levels 2 and 3 and registers both associated images; the
    XML packet of the base level is not read, so the vendor is set and the
    magnification is not. *)
Example slide_run :
  fst (_openslide_try_ventana (Some empty_osr) slide) =
  Returns_true {| property_dir := 2; level_count := 2; levels := [2; 3] |} /\
  match snd (_openslide_try_ventana (Some empty_osr) slide) with
  | Some o =>
      properties o !! "openslide.vendor" = Some "ventana" /\
      properties o !! "ventana.magnification" = None /\
      associated_images o !! "label" = Some 0 /\
      associated_images o !! "thumbnail" = Some 1
  | None => False
  end.
Proof. vm_compute. repeat split; reflexivity. Qed.

Lemma C3_no_levels_reads_empty_array_witness :
  TIFFIsTiled slide_without_levels = true /\
  _openslide_try_ventana None slide_without_levels = (Undefined, None).
Proof.
  split; [reflexivity|].
  apply (C3_no_levels_reads_empty_array None None slide_without_levels);
    reflexivity.
Defined.

(** C4, as stated, fails: the two levels of [slide_equal_widths] have the
    same width, and the driver hands over directory 3 before directory 2. *)
Lemma C4_equal_widths_come_out_descending :
  _openslide_try_ventana None slide_equal_widths =
  (Returns_true {| property_dir := 3; level_count := 2; levels := [3; 2] |},
   None) /\
  ~ ordered_levels (fun a b => a < b) slide_equal_widths [3; 2].
Proof.
  split; [vm_compute; reflexivity|].
  intros H.
  assert (Hc : 4096 <= 4096 /\ (4096 = 4096 -> 3 < 2))
    by (apply (H 0%nat 1%nat); [lia | reflexivity ..]).
  lia.
Qed.

Lemma C4_levels_wider_first_then_later_directory_first_witness :
  _openslide_try_ventana None slide_equal_widths =
  (Returns_true {| property_dir := 3; level_count := 2; levels := [3; 2] |},
   None) /\
  (forall a, In a [3; 2] -> exists w, width_of slide_equal_widths a = Some w) /\
  ordered_levels (fun a b => b < a) slide_equal_widths [3; 2].
Proof.
  split; [vm_compute; reflexivity|].
  apply (C4_levels_wider_first_then_later_directory_first None None
           slide_equal_widths
           {| property_dir := 3; level_count := 2; levels := [3; 2] |}).
  vm_compute. reflexivity.
Defined.

Lemma C5_scan_info_count_must_be_one_witness :
  parse_xml_description two_iscan_xml (Some empty_osr) =
  inl (g_set_error OPENSLIDE_ERROR_BAD_DATA "Multiple iScan elements found") /\
  exists osr', parse_xml_description iscan_xml (Some empty_osr) = inr osr'.
Proof.
  split.
  - eapply (proj1 (C5_scan_info_count_must_be_one two_iscan_xml
                     (Some empty_osr) _ eq_refl)).
    vm_compute. lia.
  - eapply (proj2 (C5_scan_info_count_must_be_one iscan_xml
                     (Some empty_osr) _ eq_refl)).
    vm_compute. reflexivity.
Defined.

Lemma jpeg2000_level_is_reached :
  at_loop_top
    (slide_jpeg2000,
     insert_property None OPENSLIDE_PROPERTY_NAME_VENDOR "ventana", [])
    (on_jpeg2000_level, None, [{| directory := 2; width := 100000 |}]).
Proof.
  apply (advance_at_loop_top _ 3 _ _ _ _ (at_start _)).
  vm_compute. reflexivity.
Defined.

Lemma C6_undecodable_level_is_bad_data_witness :
  exists msg,
    _openslide_try_ventana None slide_jpeg2000 =
    (Returns_false (g_set_error OPENSLIDE_ERROR_BAD_DATA msg), None).
Proof.
  apply (C6_undecodable_level_is_bad_data None None slide_jpeg2000
           on_jpeg2000_level [{| directory := 2; width := 100000 |}]).
  - reflexivity.
  - exact jpeg2000_level_is_reached.
  - repeat split; try discriminate.
    exists "level=1 mag=5 quality=95". split; [reflexivity|].
    vm_compute. discriminate.
  - vm_compute. reflexivity.
Defined.

Lemma C7_untiled_first_directory_witness :
  TIFFIsTiled slide_stripped_first = false /\
  _openslide_try_ventana (Some empty_osr) slide_stripped_first =
  (Returns_false (g_set_error OPENSLIDE_ERROR_FORMAT_NOT_SUPPORTED
                    "TIFF is not tiled"), Some empty_osr).
Proof.
  split; [reflexivity|].
  apply C7_untiled_first_directory. reflexivity.
Defined.

Lemma C8_detection_only_agrees_witness :
  verdict_ignores_table /\
  fst (_openslide_try_ventana None slide) =
  fst (_openslide_try_ventana (Some empty_osr) slide) /\
  snd (_openslide_try_ventana None slide) = None.
Proof.
  assert (Hverdict : verdict_ignores_table).
  { intros ht name tiff. simpl. unfold add_tiff_associated_image.
    destruct (TIFFGetField tiff TIFFTAG_IMAGEWIDTH); reflexivity. }
  split; [exact Hverdict|].
  apply (C8_detection_only_agrees Hverdict).
Defined.

Lemma C9_fixed_directories_are_not_levels_witness :
  _openslide_try_ventana None slide =
  (Returns_true {| property_dir := 2; level_count := 2; levels := [2; 3] |},
   None) /\
  ~ In 0 [2; 3] /\ ~ In 1 [2; 3].
Proof.
  assert (Hrun : _openslide_try_ventana None slide =
                 (Returns_true {| property_dir := 2; level_count := 2;
                                  levels := [2; 3] |}, None))
    by (vm_compute; reflexivity).
  split; [exact Hrun|].
  apply (C9_fixed_directories_are_not_levels _ _ _
           {| property_dir := 2; level_count := 2; levels := [2; 3] |} Hrun).
Defined.

(** C10, as stated, fails for a directory 0 that is not tiled: the first
    directory of [slide_stripped_first] is not passed over, the call fails
    with a format-not-supported error, while the rest of the file alone
    would be accepted. *)
Lemma C10_untiled_directory_0_is_an_error :
  TIFFCurrentDirectory slide_stripped_first = 0 /\
  TIFFIsTiled slide_stripped_first = false /\
  _openslide_try_ventana None slide_stripped_first =
  (Returns_false (g_set_error OPENSLIDE_ERROR_FORMAT_NOT_SUPPORTED
                    "TIFF is not tiled"), None) /\
  ~ passed_over None slide_stripped_first.
Proof.
  split; [reflexivity|]. split; [reflexivity|].
  split; [vm_compute; reflexivity|].
  unfold passed_over. intros H.
  apply (f_equal (fun r => match fst r with
                           | Returns_true _ => true
                           | _ => false
                           end)) in H.
  vm_compute in H. discriminate.
Qed.

Lemma C10_fixed_directories_need_tiles_and_width_witness :
  TIFFCurrentDirectory on_thumbnail_without_width = 1 /\
  TIFFGetField on_thumbnail_without_width TIFFTAG_IMAGEWIDTH = None /\
  loop_body (Some empty_osr) on_thumbnail_without_width [] =
  Continue (Some empty_osr) [] /\
  passed_over (Some empty_osr) on_thumbnail_without_width.
Proof.
  split; [reflexivity|]. split; [reflexivity|].
  destruct (C10_fixed_directories_need_tiles_and_width
              on_thumbnail_without_width)
    as (Hloop & Hfresh & _).
  - right. reflexivity.
  - right. reflexivity.
  - split; [apply Hloop | apply Hfresh; reflexivity].
Defined.

End Runs.

(** * Further properties *)

(** ** The comparison and the sort *)

(** X1. [width_compare] is a three-way comparison of the widths alone:
    its value is -1, 0 or 1, swapping the arguments negates it, it is 0
    exactly for equal widths whatever the directories, and negative exactly
    when the first level is the wider. *)
Theorem X1_width_compare_three_way (la lb : level) :
  (width_compare la lb = -1 \/ width_compare la lb = 0 \/
   width_compare la lb = 1) /\
  width_compare lb la = - width_compare la lb /\
  (width_compare la lb = 0 <-> width la = width lb) /\
  (width_compare la lb < 0 <-> width lb < width la).
Proof.
  unfold width_compare.
  destruct (Z.gtb_spec (width la) (width lb));
    destruct (Z.gtb_spec (width lb) (width la));
    destruct (Z.eqb_spec (width la) (width lb));
    destruct (Z.eqb_spec (width lb) (width la)); lia.
Qed.

Lemma StronglySorted_any {A : Type} (l : list A) :
  StronglySorted (fun _ _ => True) l.
Proof.
  induction l; constructor; auto. apply Forall_forall. auto.
Qed.

(** X2. Sorting any list of levels with [width_compare] rearranges it, no
    level lost or repeated, so that the widths never increase. *)
Theorem X2_sort_by_width (level_list : list level) :
  Permutation (GList.g_list_sort level_list width_compare) level_list /\
  StronglySorted (fun a b => width b <= width a)
    (GList.g_list_sort level_list width_compare).
Proof.
  split; [apply g_list_sort_real_perm|].
  apply Sorted.Sorted_StronglySorted; [intros a b c; lia|].
  apply (g_list_sort_real_sorted width_compare _ (fun _ _ => True)).
  - intros a b _. unfold width_compare.
    destruct (Z.gtb_spec (width a) (width b)); [lia|].
    destruct (Z.eqb_spec (width a) (width b)); lia.
  - intros a b _ H. apply width_compare_positive in H.
    unfold wider_first in H. lia.
  - apply StronglySorted_any.
Qed.

(** ** The scanner *)





Section FetchFacts.

Variable match_at : string -> option string.



End FetchFacts.







(** ** Reading the XML *)

Section XmlFacts.

Context `{RT : Runtime}.

(** X6. [set_prop_from_attribute] does nothing without [osr].  With [osr]
    it leaves the associated images and every other property alone, and
    the property it is given ends up holding the attribute of the first
    node the query matches; when the query matches nothing or that node
    lacks the attribute the property keeps what it had. *)
Theorem X6_set_prop_from_attribute_effect (o : openslide_t)
  (property_name xpath attribute_name : string) (context : xmlDoc) :
  set_prop_from_attribute None property_name xpath attribute_name context =
  None /\
  exists o',
    set_prop_from_attribute (Some o) property_name xpath attribute_name
      context = Some o' /\
    associated_images o' = associated_images o /\
    (forall k, k <> property_name ->
               properties o' !! k = properties o !! k) /\
    properties o' !! property_name =
    match first_match xpath context with
    | Some node0 =>
        match xmlGetProp node0 attribute_name with
        | Some str => Some str
        | None => properties o !! property_name
        end
    | None => properties o !! property_name
    end.
Proof.
  split; [apply set_prop_from_attribute_null|].
  unfold set_prop_from_attribute, eval_xpath, first_match.
  destruct (xmlXPathEvalExpression xpath context) as [[[|node0 rest]|]|];
    try (exists o; repeat split; reflexivity).
  destruct (xmlGetProp node0 attribute_name) as [str|];
    [|exists o; repeat split; reflexivity].
  eexists. split; [reflexivity|]. simpl. split; [reflexivity|]. split.
  - intros k Hk. apply lookup_insert_ne. congruence.
  - apply lookup_insert_eq.
Qed.

(** X7. [set_prop_from_content] behaves alike with the text content of
    the first matched node. *)
Theorem X7_set_prop_from_content_effect (o : openslide_t)
  (property_name xpath : string) (context : xmlDoc) :
  set_prop_from_content None property_name xpath context = None /\
  exists o',
    set_prop_from_content (Some o) property_name xpath context = Some o' /\
    associated_images o' = associated_images o /\
    (forall k, k <> property_name ->
               properties o' !! k = properties o !! k) /\
    properties o' !! property_name =
    match first_match xpath context with
    | Some node0 =>
        match xmlNodeGetContent node0 with
        | Some str => Some str
        | None => properties o !! property_name
        end
    | None => properties o !! property_name
    end.
Proof.
  unfold set_prop_from_content, eval_xpath, first_match.
  destruct (xmlXPathEvalExpression xpath context) as [[[|node0 rest]|]|];
    try (split; [reflexivity|]; exists o; repeat split; reflexivity).
  destruct (xmlNodeGetContent node0) as [str|];
    [|split; [reflexivity|]; exists o; repeat split; reflexivity].
  split; [reflexivity|].
  eexists. split; [reflexivity|]. simpl. split; [reflexivity|]. split.
  - intros k Hk. apply lookup_insert_ne. congruence.
  - apply lookup_insert_eq.
Qed.

(** X8. [parse_xml_description] reports the format-not-supported error
    "Could not parse XML" exactly when libxml2 cannot read the text;
    every other failure of it is a bad-data error. *)
Theorem X8_unparseable_xml_is_not_supported
  (xml : string) (osr : option openslide_t) :
  (xmlReadMemory xml = None <->
   parse_xml_description xml osr =
   inl (g_set_error OPENSLIDE_ERROR_FORMAT_NOT_SUPPORTED
          "Could not parse XML")) /\
  (forall e, parse_xml_description xml osr = inl e ->
             xmlReadMemory xml <> None ->
             code e = OPENSLIDE_ERROR_BAD_DATA).
Proof.
  unfold parse_xml_description.
  destruct (xmlReadMemory xml) as [context|].
  - destruct (eval_xpath VENTANA_ISCAN context) as [nodeTab|];
      [destruct (negb (length nodeTab =? 1)%nat)|];
      (split; [split; discriminate|]); intros e He _;
      try discriminate; injection He as <-; reflexivity.
  - split; [split; reflexivity|]. intros e _ H. congruence.
Qed.

Lemma set_prop_from_attribute_copies (o : openslide_t) (node : xmlNode)
  (rest : list xmlNode) (context : xmlDoc) (property_name attribute_name : string) :
  xmlXPathEvalExpression VENTANA_ISCAN context = Some (Some (node :: rest)) ->
  set_prop_from_attribute (Some o) property_name VENTANA_ISCAN attribute_name
    context =
  Some {| properties :=
            copy_attributes node [(property_name, attribute_name)]
              (properties o);
          associated_images := associated_images o |}.
Proof.
  intros Hq. unfold set_prop_from_attribute, eval_xpath, copy_attributes.
  rewrite Hq. simpl. destruct (xmlGetProp node attribute_name); [reflexivity|].
  destruct o; reflexivity.
Qed.

Lemma copy_attributes_app (node : xmlNode) (l1 l2 : list (string * string))
  (p : gmap string string) :
  copy_attributes node (l1 ++ l2) p =
  copy_attributes node l2 (copy_attributes node l1 p).
Proof. apply fold_left_app. Qed.

(** What a successful call leaves in [osr]. *)
Lemma parse_xml_description_success (xml : string) (o : openslide_t)
  (context : xmlDoc) (node : xmlNode) :
  xmlReadMemory xml = Some context ->
  xmlXPathEvalExpression VENTANA_ISCAN context = Some (Some [node]) ->
  parse_xml_description xml (Some o) =
  inr (Some {| properties :=
                 derive_standard
                   (copy_attributes node ventana_attributes (properties o));
               associated_images := associated_images o |}).
Proof.
  intros Hdoc Hq. unfold parse_xml_description, eval_xpath.
  rewrite Hdoc, Hq. cbn [length Nat.eqb negb]. cbv zeta beta.
  rewrite !(set_prop_from_attribute_copies _ node [] context) by exact Hq.
  reflexivity.
Qed.

Lemma copy_attributes_other (node : xmlNode) (l : list (string * string)) :
  forall (p : gmap string string) (k : string),
    ~ In k (map fst l) -> copy_attributes node l p !! k = p !! k.
Proof.
  induction l as [|[name attr] l IH]; intros p k Hk; [reflexivity|].
  simpl in Hk. change (copy_attributes node ((name, attr) :: l) p)
    with (copy_attributes node l
            match xmlGetProp node attr with
            | Some str => <[name := str]> p
            | None => p
            end).
  rewrite IH by tauto.
  destruct (xmlGetProp node attr); [|reflexivity].
  apply lookup_insert_ne. tauto.
Qed.

Lemma copy_attributes_named (node : xmlNode) (l : list (string * string)) :
  forall (p : gmap string string) (name attr : string),
    List.NoDup (map fst l) -> In (name, attr) l ->
    copy_attributes node l p !! name =
    match xmlGetProp node attr with
    | Some str => Some str
    | None => p !! name
    end.
Proof.
  induction l as [|[name' attr'] l IH]; intros p name attr Hnd Hin;
    [destruct Hin|].
  inversion Hnd as [|? ? Hfresh Hnd']; subst.
  change (copy_attributes node ((name', attr') :: l) p)
    with (copy_attributes node l
            match xmlGetProp node attr' with
            | Some str => <[name' := str]> p
            | None => p
            end).
  destruct Hin as [[= -> ->]|Hin].
  - rewrite copy_attributes_other by exact Hfresh.
    destruct (xmlGetProp node attr); [apply lookup_insert_eq | reflexivity].
  - rewrite (IH _ name attr Hnd' Hin).
    destruct (xmlGetProp node attr); [reflexivity|].
    destruct (xmlGetProp node attr'); [|reflexivity].
    apply lookup_insert_ne. intros ->. apply Hfresh.
    apply in_map_iff. exists (name, attr). auto.
Qed.

Lemma ventana_attributes_NoDup : List.NoDup (map fst ventana_attributes).
Proof.
  apply NoDup_ListNoDup.
  apply (bool_decide_unpack (NoDup (map fst ventana_attributes))).
  vm_compute. exact I.
Qed.

(** X9. When [parse_xml_description] returns true with an [osr], the XML
    parsed and held exactly one iScan node; the associated images are as
    they were; and the table handed to the three derivations of standard
    properties holds, under each of the thirteen ventana names, the
    attribute of that node it is read from (or what the table had, when the
    node lacks the attribute), every other key being as it was. *)
Theorem X9_parse_xml_description_copies_attributes
  (xml : string) (o : openslide_t) (osr' : option openslide_t) :
  parse_xml_description xml (Some o) = inr osr' ->
  exists context node p,
    xmlReadMemory xml = Some context /\
    xmlXPathEvalExpression VENTANA_ISCAN context = Some (Some [node]) /\
    osr' = Some {| properties := derive_standard p;
                   associated_images := associated_images o |} /\
    (forall name attr,
        In (name, attr) ventana_attributes ->
        p !! name = match xmlGetProp node attr with
                    | Some str => Some str
                    | None => properties o !! name
                    end) /\
    (forall k, ~ In k (map fst ventana_attributes) ->
               p !! k = properties o !! k).
Proof.
  intros Hrun.
  destruct (xmlReadMemory xml) as [context|] eqn:Hdoc;
    [|unfold parse_xml_description in Hrun; rewrite Hdoc in Hrun; discriminate].
  destruct (xmlXPathEvalExpression VENTANA_ISCAN context)
    as [[[|node [|node1 rest]]|]|] eqn:Hq;
    try (unfold parse_xml_description, eval_xpath in Hrun;
         rewrite Hdoc, Hq in Hrun; discriminate).
  rewrite (parse_xml_description_success _ _ _ _ Hdoc Hq) in Hrun.
  injection Hrun as <-.
  exists context, node,
    (copy_attributes node ventana_attributes (properties o)).
  split; [reflexivity|]. split; [exact Hq|]. split; [reflexivity|]. split.
  - intros name attr Hin.
    apply copy_attributes_named; [apply ventana_attributes_NoDup | exact Hin].
  - intros k Hk. apply copy_attributes_other, Hk.
Qed.

(** X10. Whether [parse_xml_description] accepts a text, and the error it
    reports when it does not, are the same without [osr] as with it;
    without [osr] it hands none back, with [osr] it hands one back. *)
Theorem X10_parse_xml_description_ignores_osr
  (xml : string) (o : openslide_t) :
  match parse_xml_description xml None, parse_xml_description xml (Some o) with
  | inl e1, inl e2 => e1 = e2
  | inr r1, inr r2 => r1 = None /\ r2 <> None
  | _, _ => False
  end.
Proof.
  rewrite (parse_xml_description_null xml (Some o)).
  destruct (xmlReadMemory xml) as [context|] eqn:Hdoc;
    [|unfold parse_xml_description; rewrite Hdoc; reflexivity].
  destruct (xmlXPathEvalExpression VENTANA_ISCAN context)
    as [[[|node [|node1 rest]]|]|] eqn:Hq;
    try (unfold parse_xml_description, eval_xpath; rewrite Hdoc, Hq;
         reflexivity).
  rewrite (parse_xml_description_success _ _ _ _ Hdoc Hq).
  split; [reflexivity | discriminate].
Qed.

End XmlFacts.

(** ** The driver *)

Section DriverFacts.

Context `{RT : Runtime}.

(** A pass that reaches the loop condition has pushed the current
    directory exactly when it passes the four filters, and has left [osr]
    alone unless the directory is number 0 or 1. *)
Lemma loop_body_continue (osr osr' : option openslide_t) (tiff : TIFF)
  (level_list level_list' : list level) :
  loop_body osr tiff level_list = Continue osr' level_list' ->
  (passes_filters (tif_curdir tiff) (tif_dir tiff) /\
   osr' = osr /\
   exists w, TIFFTAG_IMAGEWIDTH (tif_dir tiff) = Some w /\
             level_list' =
             {| directory := tif_curdir tiff; width := w |} :: level_list) \/
  (~ passes_filters (tif_curdir tiff) (tif_dir tiff) /\
   level_list' = level_list).
Proof.
  unfold loop_body, filter_associated, TIFFGetField, TIFFCurrentDirectory,
    TIFFIsTiled, passes_filters.
  destruct (dir_is_tiled (tif_dir tiff)); cbn [negb];
    [|intros [= _ <-]; right; split; [intros (? & _); discriminate | auto]].
  destruct (TIFFTAG_IMAGEWIDTH (tif_dir tiff)) as [w|];
    [|intros [= _ <-]; right; split; [intros (_ & ? & _); congruence | auto]].
  destruct (Z.eqb_spec (tif_curdir tiff) 0) as [E0|H0].
  { destruct (add_associated_image _ _ _) as [[err|] ht]; [discriminate|].
    intros [= _ <-]. right. split; [intros (_ & _ & ? & _); congruence | auto]. }
  destruct (Z.eqb_spec (tif_curdir tiff) 1) as [E1|H1].
  { destruct (add_associated_image _ _ _) as [[err|] ht]; [discriminate|].
    intros [= _ <-]. right.
    split; [intros (_ & _ & _ & ? & _); congruence | auto]. }
  destruct (TIFFTAG_IMAGEDESCRIPTION (tif_dir tiff)) as [imageDesc|];
    [|intros [= _ <-]; right; split;
      [intros (_ & _ & _ & _ & ? & ? & _); discriminate | auto]].
  destruct (find_property imageDesc "level" false) as [level_value|]
    eqn:Hlevel;
    [|intros [= _ <-]; right; split;
      [intros (_ & _ & _ & _ & ? & [= <-] & ?); congruence | auto]].
  destruct (TIFFTAG_COMPRESSION (tif_dir tiff)) as [compression|];
    [|discriminate].
  destruct (negb (TIFFIsCODECConfigured compression)); [discriminate|].
  rewrite (level_value_is_never_0 _ _ Hlevel).
  intros [= <- <-]. left. repeat split; try congruence; eauto.
  exists imageDesc. split; [reflexivity | congruence].
Qed.

(** A pass that jumps to FAIL does so with one of the errors of
    [driver_error]. *)
Lemma loop_body_fail (osr osr' : option openslide_t) (tiff : TIFF)
  (level_list : list level) (e : GError) :
  loop_body osr tiff level_list = Fail e osr' -> driver_error e.
Proof.
  unfold loop_body, filter_associated, driver_error.
  destruct (negb (TIFFIsTiled tiff)); [discriminate|].
  destruct (TIFFGetField tiff TIFFTAG_IMAGEWIDTH) as [w|]; [|discriminate].
  destruct (TIFFCurrentDirectory tiff =? 0).
  { destruct (add_associated_image _ _ _) as [[err|] ht]; [|discriminate].
    intros [= <- _]. do 3 right. eauto. }
  destruct (TIFFCurrentDirectory tiff =? 1).
  { destruct (add_associated_image _ _ _) as [[err|] ht]; [|discriminate].
    intros [= <- _]. do 3 right. eauto. }
  destruct (TIFFGetField tiff TIFFTAG_IMAGEDESCRIPTION) as [imageDesc|];
    [|discriminate].
  destruct (find_property imageDesc "level" false) as [level_value|]
    eqn:Hlevel; [|discriminate].
  destruct (TIFFGetField tiff TIFFTAG_COMPRESSION) as [compression|];
    [|intros [= <- _]; auto].
  destruct (TIFFIsCODECConfigured compression) eqn:Hcodec; cbn [negb];
    [|intros [= <- _]; right; right; left; eauto].
  rewrite (level_value_is_never_0 _ _ Hlevel). discriminate.
Qed.



Lemma directory_loop_fail (next : list tiff_directory) :
  forall (osr osr' : option openslide_t) (dir : Z) (d : tiff_directory)
         (level_list : list level) (e : GError),
    directory_loop osr dir d next level_list = Fail e osr' -> driver_error e.
Proof.
  induction next as [|d' next IH]; intros osr osr' dir d level_list e; simpl;
    destruct (loop_body osr _ level_list) as [osr1 ll1|e1 osr1] eqn:Hbody;
    try discriminate;
    try (intros [= <- _]; eapply loop_body_fail; exact Hbody).
  apply IH.
Qed.

Lemma directory_at_past_end (dir n : Z) (d : tiff_directory) :
  dir < n ->
  directory_at {| tif_curdir := dir; tif_dir := d; tif_next := [] |} n = None.
Proof.
  intros Hn. unfold directory_at. simpl.
  destruct (Z.ltb_spec n dir); [reflexivity|].
  destruct (Z.to_nat (n - dir)) as [|k] eqn:E; [lia | reflexivity].
Qed.

(** The directories pushed by the loop are those it went through that pass
    the four filters. *)
Lemma directory_loop_visits (tiff0 : TIFF) (next : list tiff_directory) :
  forall (osr osr' : option openslide_t) (dir : Z) (d : tiff_directory)
         (level_list level_list' : list level),
    (forall n, dir <= n ->
       directory_at {| tif_curdir := dir; tif_dir := d; tif_next := next |} n =
       directory_at tiff0 n) ->
    directory_loop osr dir d next level_list = Continue osr' level_list' ->
    (length level_list' <= length level_list + S (length next))%nat /\
    forall n,
      In n (map directory level_list') <->
      In n (map directory level_list) \/
      (dir <= n /\
       exists d0, directory_at tiff0 n = Some d0 /\ passes_filters n d0).
Proof.
  induction next as [|d' next IH]; intros osr osr' dir d ll ll' Hat; simpl;
    destruct (loop_body osr _ ll) as [osr1 ll1|] eqn:Hbody; try discriminate;
    apply loop_body_continue in Hbody; simpl in Hbody;
    pose proof (Hat dir (Z.le_refl _)) as Hhere;
    rewrite directory_at_here in Hhere.
  - intros [= _ <-].
    assert (Hlater : forall n d0, dir <= n ->
               directory_at tiff0 n = Some d0 -> n = dir /\ d0 = d).
    { intros n d0 Hn Hd0. destruct (Z.eq_dec n dir) as [->|Hne].
      - split; congruence.
      - rewrite <- Hat, directory_at_past_end in Hd0 by lia. discriminate. }
    destruct Hbody as [(Hpass & _ & w & _ & ->)|(Hnot & ->)]; simpl.
    + split; [lia|]. intros n. split.
      * intros [<-|Hin]; [right|left; exact Hin].
        split; [lia|]. exists d. auto.
      * intros [Hin|(Hn & d0 & Hd0 & _)]; [right; exact Hin|].
        left. destruct (Hlater n d0 Hn Hd0) as [-> _]. reflexivity.
    + split; [lia|]. intros n. split; [auto|].
      intros [Hin|(Hn & d0 & Hd0 & Hp)]; [exact Hin|].
      destruct (Hlater n d0 Hn Hd0) as [-> ->]. contradiction.
  - intros Hloop.
    apply IH in Hloop as [Hlen Hiff];
      [|intros n Hn; rewrite <- Hat by lia; apply directory_at_next; exact Hn].
    assert (Hsplit : forall n d0, dir <= n ->
               directory_at tiff0 n = Some d0 ->
               (n = dir /\ d0 = d) \/ dir + 1 <= n).
    { intros n d0 Hn Hd0. destruct (Z.eq_dec n dir) as [->|Hne].
      - left. split; congruence.
      - right. lia. }
    destruct Hbody as [(Hpass & _ & w & _ & ->)|(Hnot & ->)]; simpl in *.
    + split; [lia|]. intros n. rewrite Hiff. split.
      * intros [[<-|Hin]|(Hn & Hd)]; [right|left; exact Hin|right].
        -- split; [lia|]. exists d. auto.
        -- split; [lia | exact Hd].
      * intros [Hin|(Hn & d0 & Hd0 & Hp)]; [left; right; exact Hin|].
        destruct (Hsplit n d0 Hn Hd0) as [[-> ->]|Hn'].
        -- left. left. reflexivity.
        -- right. split; [exact Hn' | eauto].
    + split; [lia|]. intros n. rewrite Hiff. split.
      * intros [Hin|(Hn & Hd)]; [left; exact Hin|right].
        split; [lia | exact Hd].
      * intros [Hin|(Hn & d0 & Hd0 & Hp)]; [left; exact Hin|].
        destruct (Hsplit n d0 Hn Hd0) as [[-> ->]|Hn']; [contradiction|].
        right. split; [exact Hn' | eauto].
Qed.

(** A call that returns true passed the guard, went through the loop
    without a failure and handed over the sorted list. *)
Lemma returns_true_loop (osr osr' : option openslide_t) (tiff : TIFF)
  (ops : tiff_ops) :
  _openslide_try_ventana osr tiff = (Returns_true ops, osr') ->
  exists level_list,
    run_loop (insert_property osr OPENSLIDE_PROPERTY_NAME_VENDOR "ventana")
      tiff [] = Continue osr' level_list /\
    sort_and_hand_off level_list = Returns_true ops.
Proof.
  unfold _openslide_try_ventana.
  destruct (negb (TIFFIsTiled tiff)); [discriminate|]. cbv zeta.
  destruct (run_loop _ tiff []) as [osr1 level_list|]; simpl; [|discriminate].
  intros [= Hops <-]. eauto.
Qed.

Lemma directory_at_before (tiff : TIFF) (n : Z) (d : tiff_directory) :
  directory_at tiff n = Some d -> tif_curdir tiff <= n.
Proof.
  unfold directory_at. destruct (Z.ltb_spec n (tif_curdir tiff));
    [discriminate | lia].
Qed.

(** X11. When the driver returns true, the array it hands over holds
    exactly the numbers of the directories, from the one the handle was on
    to the last, that are tiled, have a width tag, are neither directory 0
    nor 1 and whose description holds a level token: none of them is left
    out and nothing else is let in. *)
Theorem X11_levels_are_the_directories_passing_the_filters
  (osr osr' : option openslide_t) (tiff : TIFF) (ops : tiff_ops) :
  _openslide_try_ventana osr tiff = (Returns_true ops, osr') ->
  forall n,
    In n (levels ops) <->
    exists d, directory_at tiff n = Some d /\ passes_filters n d.
Proof.
  intros Hrun n.
  apply returns_true_loop in Hrun as (level_list & Hloop & Hops).
  rewrite (sort_and_hand_off_levels _ _ Hops).
  unfold run_loop in Hloop. destruct tiff as [dir d next]. simpl in Hloop.
  apply (directory_loop_visits
           {| tif_curdir := dir; tif_dir := d; tif_next := next |})
    in Hloop as [_ Hiff]; [|reflexivity].
  assert (Hperm : Permutation
            (map directory (GList.g_list_sort level_list width_compare))
            (map directory level_list))
    by apply Permutation_map, g_list_sort_real_perm.
  split.
  - intros Hin. apply (Permutation_in _ Hperm), Hiff in Hin.
    destruct Hin as [[]|(_ & Hd)]. exact Hd.
  - intros (d0 & Hd0 & Hp). apply (Permutation_in _ (Permutation_sym Hperm)).
    apply Hiff. right. split; [|eauto].
    apply directory_at_before in Hd0. exact Hd0.
Qed.

Lemma later_first_NoDup (level_list : list level) :
  StronglySorted later_first level_list ->
  List.NoDup (map directory level_list).
Proof.
  induction 1 as [|a l HS IH Hall]; simpl; constructor; [|exact IH].
  intros Hin. apply in_map_iff in Hin as (b & Hb & Hin).
  rewrite List.Forall_forall in Hall. specialize (Hall b Hin).
  unfold later_first in Hall. lia.
Qed.

(** X12. What the driver hands over on success is well formed: the array
    is not empty and has no directory twice, the count is its length and
    at most the number of directories from the handle on, the directory
    named as the base is its first entry, and no entry is wider than the
    base. *)
Theorem X12_hand_over_is_well_formed
  (osr osr' : option openslide_t) (tiff : TIFF) (ops : tiff_ops) :
  _openslide_try_ventana osr tiff = (Returns_true ops, osr') ->
  List.NoDup (levels ops) /\
  level_count ops = Z.of_nat (length (levels ops)) /\
  1 <= level_count ops <= 1 + Z.of_nat (length (tif_next tiff)) /\
  head (levels ops) = Some (property_dir ops) /\
  forall a wa w0,
    In a (levels ops) ->
    width_of tiff a = Some wa ->
    width_of tiff (property_dir ops) = Some w0 ->
    wa <= w0.
Proof.
  intros Hrun.
  apply returns_true_loop in Hrun as (level_list & Hloop & Hops).
  pose proof (sort_and_hand_off_levels _ _ Hops) as Hlevels.
  destruct (run_loop_recorded _ _ _ _ Hloop) as (dir' & Hall & Hlater).
  pose proof (g_list_sort_wider_first level_list Hlater) as Hsorted.
  pose proof (g_list_sort_real_perm width_compare level_list) as Hperm.
  fold (GList.g_list_sort level_list width_compare) in Hperm.
  assert (Hlen : (length level_list <= S (length (tif_next tiff)))%nat).
  { unfold run_loop in Hloop. destruct tiff as [dir d next]. simpl in *.
    apply (directory_loop_visits
             {| tif_curdir := dir; tif_dir := d; tif_next := next |})
      in Hloop as [Hlen _]; [exact Hlen | reflexivity]. }
  unfold sort_and_hand_off in Hops.
  destruct (GList.g_list_sort level_list width_compare) as [|l0 sorted]
    eqn:Hsort; [discriminate|].
  simpl in Hops. injection Hops as <-. simpl in *.
  apply Permutation_length in Hperm as Hlen'. simpl in Hlen'.
  split; [|split; [reflexivity
                  |split; [rewrite List.length_map; lia
                          |split; [reflexivity|]]]].
  - apply (Permutation_NoDup (l := map directory level_list)).
    + symmetry. apply (Permutation_map directory) in Hperm. exact Hperm.
    + apply later_first_NoDup, Hlater.
  - assert (Hw : forall l, In l (l0 :: sorted) ->
                   width_of tiff (directory l) = Some (width l)).
    { rewrite List.Forall_forall in Hall. intros l Hl. apply Hall.
      apply (Permutation_in _ Hperm). exact Hl. }
    apply StronglySorted_inv in Hsorted as [_ Hfirst].
    rewrite List.Forall_forall in Hfirst.
    intros a wa w0 Ha Hwa Hw0.
    rewrite (Hw l0) in Hw0 by (left; reflexivity). injection Hw0 as <-.
    destruct Ha as [<-|Ha].
    + rewrite (Hw l0) in Hwa by (left; reflexivity). injection Hwa as <-. lia.
    + apply in_map_iff in Ha as (l & <- & Hl).
      rewrite (Hw l) in Hwa by (right; exact Hl). injection Hwa as <-.
      specialize (Hfirst l Hl). unfold wider_first in Hfirst. lia.
Qed.


(** X14. Every failure of the driver is one of four: the first directory
    is not tiled; a level whose compression tag cannot be read; a level
    whose codec is not configured; or a failure of the associated-image
    collaborator on the label or the thumbnail, passed on under a prefix.
    The errors of the XML stage are never reported. *)
Theorem X14_failures_of_the_driver
  (osr osr' : option openslide_t) (tiff : TIFF) (e : GError) :
  _openslide_try_ventana osr tiff = (Returns_false e, osr') ->
  driver_error e.
Proof.
  unfold _openslide_try_ventana.
  destruct (negb (TIFFIsTiled tiff)).
  - intros [= <- _]. left. reflexivity.
  - cbv zeta. unfold run_loop.
    destruct (directory_loop _ _ _ _ _) as [osr1 ll|e1 osr1] eqn:Hloop; simpl.
    + unfold sort_and_hand_off.
      destruct (map directory _); discriminate.
    + intros [= <- _]. eapply directory_loop_fail, Hloop.
Qed.

(** X15. When the loop arrives at directory 0 or 1, tiled and with a width
    tag, and the associated-image collaborator fails there, the driver
    returns false with the collaborator's error under the prefix naming
    the label or the thumbnail; [osr] keeps what was registered before and
    the table as the failed call left it. *)
Theorem X15_associated_image_failure_is_passed_on
  (osr osr_here : option openslide_t) (tiff here : TIFF)
  (level_list : list level) (name prefix : string) (e0 : GError)
  (ht : option (gmap string associated_image)) :
  TIFFIsTiled tiff = true ->
  at_loop_top
    (tiff, insert_property osr OPENSLIDE_PROPERTY_NAME_VENDOR "ventana", [])
    (here, osr_here, level_list) ->
  TIFFIsTiled here = true ->
  TIFFGetField here TIFFTAG_IMAGEWIDTH <> None ->
  (TIFFCurrentDirectory here = 0 /\ name = "label" /\
   prefix = "Can't read associated label image: ") \/
  (TIFFCurrentDirectory here = 1 /\ name = "thumbnail" /\
   prefix = "Can't read associated thumbnail image: ") ->
  _openslide_add_tiff_associated_image (associated_images_of osr_here) name
    here = (Some e0, ht) ->
  _openslide_try_ventana osr tiff =
  (Returns_false (g_prefix_error e0 prefix),
   with_associated_images osr_here ht).
Proof.
  intros Ht Hat Hthere Hw Hdir Hfail.
  assert (Hbody : loop_body osr_here here level_list =
                  Fail (g_prefix_error e0 prefix)
                    (with_associated_images osr_here ht)).
  { unfold loop_body, filter_associated, add_associated_image.
    rewrite Hthere. cbn [negb].
    destruct (TIFFGetField here TIFFTAG_IMAGEWIDTH) as [w|]; [|congruence].
    destruct Hdir as [(-> & -> & ->)|(-> & -> & ->)]; simpl;
      rewrite Hfail; reflexivity. }
  unfold _openslide_try_ventana. rewrite Ht. cbn [negb]. cbv zeta.
  pose proof (at_loop_top_run _ _ Hat) as Hrun. simpl in Hrun.
  rewrite Hrun, run_loop_unfold, Hbody. reflexivity.
Qed.

End DriverFacts.

(** ** The further properties on the sample slides *)



Section FurtherRuns.

Import Sample.

Local Existing Instance runtime.

Lemma X9_parse_xml_description_copies_attributes_witness :
  exists context node p,
    xmlReadMemory iscan_xml = Some context /\
    xmlXPathEvalExpression VENTANA_ISCAN context = Some (Some [node]) /\
    Some {| properties :=
              derive_standard
                (copy_attributes
                   [("Magnification", "20"); ("ScanRes", "0.25")]
                   ventana_attributes (properties empty_osr));
            associated_images := associated_images empty_osr |} =
    Some {| properties := derive_standard p;
            associated_images := associated_images empty_osr |} /\
    (forall name attr,
        In (name, attr) ventana_attributes ->
        p !! name = match xmlGetProp node attr with
                    | Some str => Some str
                    | None => properties empty_osr !! name
                    end) /\
    (forall k, ~ In k (map fst ventana_attributes) ->
               p !! k = properties empty_osr !! k).
Proof.
  apply (X9_parse_xml_description_copies_attributes iscan_xml empty_osr).
  apply (parse_xml_description_success iscan_xml empty_osr
           [[("Magnification", "20"); ("ScanRes", "0.25")]]
           [("Magnification", "20"); ("ScanRes", "0.25")]);
    reflexivity.
Defined.

Lemma X11_levels_are_the_directories_passing_the_filters_witness :
  _openslide_try_ventana None slide =
  (Returns_true {| property_dir := 2; level_count := 2; levels := [2; 3] |},
   None) /\
  forall n,
    In n [2; 3] <->
    exists d, directory_at slide n = Some d /\ passes_filters n d.
Proof.
  assert (Hrun : _openslide_try_ventana None slide =
                 (Returns_true {| property_dir := 2; level_count := 2;
                                  levels := [2; 3] |}, None))
    by (vm_compute; reflexivity).
  split; [exact Hrun|].
  apply (X11_levels_are_the_directories_passing_the_filters _ _ _
           {| property_dir := 2; level_count := 2; levels := [2; 3] |} Hrun).
Defined.

Lemma X12_hand_over_is_well_formed_witness :
  _openslide_try_ventana None slide =
  (Returns_true {| property_dir := 2; level_count := 2; levels := [2; 3] |},
   None) /\
  List.NoDup [2; 3] /\
  2 = Z.of_nat (length [2; 3]) /\
  1 <= 2 <= 1 + Z.of_nat (length (tif_next slide)) /\
  head [2; 3] = Some 2 /\
  forall a wa w0,
    In a [2; 3] ->
    width_of slide a = Some wa -> width_of slide 2 = Some w0 -> wa <= w0.
Proof.
  assert (Hrun : _openslide_try_ventana None slide =
                 (Returns_true {| property_dir := 2; level_count := 2;
                                  levels := [2; 3] |}, None))
    by (vm_compute; reflexivity).
  split; [exact Hrun|].
  apply (X12_hand_over_is_well_formed _ _ _
           {| property_dir := 2; level_count := 2; levels := [2; 3] |} Hrun).
Defined.


Lemma X14_failures_of_the_driver_witness :
  _openslide_try_ventana None slide_jpeg2000 =
  (Returns_false (g_set_error OPENSLIDE_ERROR_BAD_DATA
                    "Unsupported TIFF compression: 34712"), None) /\
  driver_error (g_set_error OPENSLIDE_ERROR_BAD_DATA
                  "Unsupported TIFF compression: 34712").
Proof.
  assert (Hrun : _openslide_try_ventana None slide_jpeg2000 =
                 (Returns_false (g_set_error OPENSLIDE_ERROR_BAD_DATA
                                   "Unsupported TIFF compression: 34712"),
                  None))
    by (vm_compute; reflexivity).
  split; [exact Hrun|].
  apply (X14_failures_of_the_driver _ _ _ _ Hrun).
Defined.

End FurtherRuns.

Section FailingRuns.

Local Existing Instance SampleFailing.runtime.

Lemma thumbnail_is_reached :
  at_loop_top
    (Sample.slide,
     insert_property None OPENSLIDE_PROPERTY_NAME_VENDOR "ventana", [])
    (SampleFailing.on_thumbnail, None, []).
Proof.
  apply (advance_at_loop_top _ 1 _ _ _ _ (at_start _)).
  vm_compute. reflexivity.
Defined.

Lemma X15_associated_image_failure_is_passed_on_witness :
  _openslide_try_ventana None Sample.slide =
  (Returns_false
     (g_prefix_error
        (g_set_error (ERROR_ELSEWHERE "tiff" 5) "Cannot read image data")
        "Can't read associated thumbnail image: "),
   None).
Proof.
  apply (X15_associated_image_failure_is_passed_on
           None None Sample.slide
           SampleFailing.on_thumbnail [] "thumbnail"
           "Can't read associated thumbnail image: "
           (g_set_error (ERROR_ELSEWHERE "tiff" 5) "Cannot read image data")
           None).
  - reflexivity.
  - exact thumbnail_is_reached.
  - reflexivity.
  - discriminate.
  - right. repeat split; reflexivity.
  - reflexivity.
Defined.

End FailingRuns.
